(** * Activity-driven connection subrating (src/subrating.c)

    A shallow embedding of the tiered subrating controller of the split
    central: the static tier table, the tier state, the apply routine
    [set_tier], the dormant timer and the activity listener.  The Bluetooth
    host stack, the kernel work queue and the event manager are external to
    the module; they appear here as an explicit [world] that the module's
    functions thread through, and as two functions giving the return codes
    of the stack. *)

From Stdlib Require Import ZArith NArith List String Bool Lia.
Import ListNotations.
Open Scope Z_scope.

(** ** Build-time configuration *)

(** The Kconfig symbols the module reads.  Their values are fixed when the
    image is built and are not part of the C file. *)
Record Kconfig : Type := mkKconfig {
  CONFIG_ZMK_BLE_SUBRATE_TIMEOUT : Z;
  CONFIG_ZMK_BLE_SUBRATE_DORMANT_DELAY : Z;
  CONFIG_ZMK_BLE_SUBRATE_ACTIVE_MIN : Z;
  CONFIG_ZMK_BLE_SUBRATE_ACTIVE_MAX : Z;
  CONFIG_ZMK_BLE_SUBRATE_ACTIVE_CN : Z;
  CONFIG_ZMK_BLE_SUBRATE_IDLE_MIN : Z;
  CONFIG_ZMK_BLE_SUBRATE_IDLE_MAX : Z;
  CONFIG_ZMK_BLE_SUBRATE_IDLE_CN : Z;
  CONFIG_ZMK_BLE_SUBRATE_IDLE_MAX_LATENCY : Z;
  CONFIG_ZMK_BLE_SUBRATE_DORMANT_MIN : Z;
  CONFIG_ZMK_BLE_SUBRATE_DORMANT_MAX : Z;
  CONFIG_ZMK_BLE_SUBRATE_DORMANT_CN : Z;
  CONFIG_ZMK_BLE_SUBRATE_DORMANT_MAX_LATENCY : Z
}.

(** The error numbers of errno.h used by the module. *)
Record errno_h : Type := mkErrno {
  EINVAL : Z;
  ENOTSUP : Z;
  EALREADY : Z
}.

(** ** Data of the Bluetooth host API *)

(** Conversion of an integer constant to a [uint16_t] struct field. *)
Definition uint16_t (x : Z) : Z := x mod 65536.

Record bt_conn_le_subrate_param : Type := mkParam {
  subrate_min : Z;
  subrate_max : Z;
  max_latency : Z;
  continuation_number : Z;
  supervision_timeout : Z
}.

Inductive bt_conn_type : Type :=
| BT_CONN_TYPE_LE
| BT_CONN_TYPE_BR
| BT_CONN_TYPE_SCO
| BT_CONN_TYPE_ISO.

Inductive bt_conn_role : Type :=
| BT_CONN_ROLE_CENTRAL
| BT_CONN_ROLE_PERIPHERAL.

Inductive bt_conn_state : Type :=
| BT_CONN_STATE_DISCONNECTED
| BT_CONN_STATE_CONNECTING
| BT_CONN_STATE_CONNECTED
| BT_CONN_STATE_DISCONNECTING.

(** What [bt_conn_get_info] reports. *)
Record bt_conn_info : Type := mkInfo {
  role : bt_conn_role;
  state : bt_conn_state
}.

(** A connection object of the host stack. *)
Record bt_conn : Type := mkConn {
  handle : nat;
  conn_type : bt_conn_type;
  conn_info : bt_conn_info
}.

Definition bt_conn_type_eqb (a b : bt_conn_type) : bool :=
  match a, b with
  | BT_CONN_TYPE_LE, BT_CONN_TYPE_LE
  | BT_CONN_TYPE_BR, BT_CONN_TYPE_BR
  | BT_CONN_TYPE_SCO, BT_CONN_TYPE_SCO
  | BT_CONN_TYPE_ISO, BT_CONN_TYPE_ISO => true
  | _, _ => false
  end.

Definition bt_conn_role_eqb (a b : bt_conn_role) : bool :=
  match a, b with
  | BT_CONN_ROLE_CENTRAL, BT_CONN_ROLE_CENTRAL
  | BT_CONN_ROLE_PERIPHERAL, BT_CONN_ROLE_PERIPHERAL => true
  | _, _ => false
  end.

Definition bt_conn_state_eqb (a b : bt_conn_state) : bool :=
  match a, b with
  | BT_CONN_STATE_DISCONNECTED, BT_CONN_STATE_DISCONNECTED
  | BT_CONN_STATE_CONNECTING, BT_CONN_STATE_CONNECTING
  | BT_CONN_STATE_CONNECTED, BT_CONN_STATE_CONNECTED
  | BT_CONN_STATE_DISCONNECTING, BT_CONN_STATE_DISCONNECTING => true
  | _, _ => false
  end.

(** ** Data of the event manager and of the kernel *)

(** [enum zmk_activity_state]; a C enum object can hold a value outside its
    enumerators, which the listener's [default] branch receives. *)
Inductive zmk_activity_state : Type :=
| ZMK_ACTIVITY_ACTIVE
| ZMK_ACTIVITY_IDLE
| ZMK_ACTIVITY_SLEEP
| ZMK_ACTIVITY_OTHER (raw : Z).

(** An event handed to a listener: an activity-state change, or an event of
    another type (for which [as_zmk_activity_state_changed] gives NULL). *)
Inductive zmk_event_t : Type :=
| zmk_activity_state_changed (st : zmk_activity_state)
| zmk_other_event.

Definition as_zmk_activity_state_changed (eh : zmk_event_t)
  : option zmk_activity_state :=
  match eh with
  | zmk_activity_state_changed st => Some st
  | zmk_other_event => None
  end.

(** A delayable work item: idle, or scheduled to run after the remaining
    number of milliseconds. *)
Inductive k_work_delayable : Type :=
| WORK_IDLE
| WORK_SCHEDULED (remaining_ms : N).

(** [K_MSEC(ms)]: a negative value is clamped to zero. *)
Definition K_MSEC (ms : Z) : N := Z.to_N ms.

(** ** The controller's own data *)

Inductive subrate_tier : Type :=
| TIER_ACTIVE
| TIER_IDLE
| TIER_DORMANT.

Definition subrate_tier_eqb (a b : subrate_tier) : bool :=
  match a, b with
  | TIER_ACTIVE, TIER_ACTIVE
  | TIER_IDLE, TIER_IDLE
  | TIER_DORMANT, TIER_DORMANT => true
  | _, _ => false
  end.

(** What the module does that is visible outside it: calls into the host
    stack (with the code the stack returned) and log lines. *)
Inductive effect : Type :=
| HCI_set_defaults (params : bt_conn_le_subrate_param) (err : Z)
| HCI_subrate_request (conn : bt_conn) (params : bt_conn_le_subrate_param)
                      (err : Z)
| LOG_INF_tier (tier_name : string) (params : bt_conn_le_subrate_param)
| LOG_WRN_request (err : Z)
| LOG_WRN_unhandled (st : zmk_activity_state)
| LOG_ERR_defaults (err : Z)
| LOG_INF_init.

(** The module's two static variables ([current_tier], [dormant_work])
    together with the part of its environment it reads or changes: the live
    connections, the stack-wide default subrating parameters, and the
    chronological record of effects. *)
Record world : Type := mkWorld {
  current_tier : subrate_tier;
  dormant_work : k_work_delayable;
  conns : list bt_conn;
  subrate_defaults : bt_conn_le_subrate_param;
  trace : list effect
}.

Definition with_current_tier (t : subrate_tier) (w : world) : world :=
  mkWorld t (dormant_work w) (conns w) (subrate_defaults w) (trace w).

Definition with_dormant_work (k : k_work_delayable) (w : world) : world :=
  mkWorld (current_tier w) k (conns w) (subrate_defaults w) (trace w).

Definition with_conns (l : list bt_conn) (w : world) : world :=
  mkWorld (current_tier w) (dormant_work w) l (subrate_defaults w) (trace w).

Definition with_subrate_defaults (p : bt_conn_le_subrate_param) (w : world)
  : world :=
  mkWorld (current_tier w) (dormant_work w) (conns w) p (trace w).

Definition with_effect (e : effect) (w : world) : world :=
  mkWorld (current_tier w) (dormant_work w) (conns w) (subrate_defaults w)
          (trace w ++ [e]).

(** ** State passing *)

Definition M (A : Type) : Type := world -> A * world.

Definition ret {A : Type} (a : A) : M A := fun w => (a, w).

Definition bind {A B : Type} (c : M A) (k : A -> M B) : M B :=
  fun w => k (fst (c w)) (snd (c w)).

Declare Scope M_scope.
Delimit Scope M_scope with M.
Notation "x <- c ;; k" := (bind c (fun x => k))
  (at level 61, c at next level, right associativity) : M_scope.
Notation "c ;; k" := (bind c (fun _ => k))
  (at level 61, right associativity) : M_scope.

Definition exec {A : Type} (c : M A) (w : world) : world := snd (c w).
Definition result {A : Type} (c : M A) (w : world) : A := fst (c w).

Definition emit (e : effect) : M unit := fun w => (tt, with_effect e w).

(** The effects recorded between an earlier world and a later one. *)
Definition emitted (w w' : world) : list effect :=
  skipn (List.length (trace w)) (trace w').

(** ** What the module is built and run against *)

(** The configuration and error numbers of the build, and the codes the
    stack returns for a per-connection request and for a change of the
    defaults; either code may depend on everything the module has done so
    far. *)
Record platform : Type := mkPlatform {
  cfg : Kconfig;
  errno : errno_h;
  stack_subrate_request :
    list effect -> bt_conn -> bt_conn_le_subrate_param -> Z;
  stack_set_defaults :
    list effect -> bt_conn_le_subrate_param -> Z
}.

(** ** The module *)

Section Subrating.

Variable P : platform.

Definition SUBRATE_TIMEOUT : Z := CONFIG_ZMK_BLE_SUBRATE_TIMEOUT (cfg P).
Definition SUBRATE_DORMANT_DELAY_MS : Z :=
  CONFIG_ZMK_BLE_SUBRATE_DORMANT_DELAY (cfg P).

Definition SUBRATE_ACTIVE_MIN : Z := CONFIG_ZMK_BLE_SUBRATE_ACTIVE_MIN (cfg P).
Definition SUBRATE_ACTIVE_MAX : Z := CONFIG_ZMK_BLE_SUBRATE_ACTIVE_MAX (cfg P).
Definition SUBRATE_ACTIVE_CN : Z := CONFIG_ZMK_BLE_SUBRATE_ACTIVE_CN (cfg P).

Definition active_params : bt_conn_le_subrate_param :=
  {| subrate_min := uint16_t SUBRATE_ACTIVE_MIN;
     subrate_max := uint16_t SUBRATE_ACTIVE_MAX;
     max_latency := uint16_t 0;
     continuation_number := uint16_t SUBRATE_ACTIVE_CN;
     supervision_timeout := uint16_t SUBRATE_TIMEOUT |}.

Definition SUBRATE_IDLE_MIN : Z := CONFIG_ZMK_BLE_SUBRATE_IDLE_MIN (cfg P).
Definition SUBRATE_IDLE_MAX : Z := CONFIG_ZMK_BLE_SUBRATE_IDLE_MAX (cfg P).
Definition SUBRATE_IDLE_CN : Z := CONFIG_ZMK_BLE_SUBRATE_IDLE_CN (cfg P).
Definition SUBRATE_IDLE_MAX_LATENCY : Z :=
  CONFIG_ZMK_BLE_SUBRATE_IDLE_MAX_LATENCY (cfg P).

Definition idle_params : bt_conn_le_subrate_param :=
  {| subrate_min := uint16_t SUBRATE_IDLE_MIN;
     subrate_max := uint16_t SUBRATE_IDLE_MAX;
     max_latency := uint16_t SUBRATE_IDLE_MAX_LATENCY;
     continuation_number := uint16_t SUBRATE_IDLE_CN;
     supervision_timeout := uint16_t SUBRATE_TIMEOUT |}.

Definition SUBRATE_DORMANT_MIN : Z := CONFIG_ZMK_BLE_SUBRATE_DORMANT_MIN (cfg P).
Definition SUBRATE_DORMANT_MAX : Z := CONFIG_ZMK_BLE_SUBRATE_DORMANT_MAX (cfg P).
Definition SUBRATE_DORMANT_CN : Z := CONFIG_ZMK_BLE_SUBRATE_DORMANT_CN (cfg P).
Definition SUBRATE_DORMANT_MAX_LATENCY : Z :=
  CONFIG_ZMK_BLE_SUBRATE_DORMANT_MAX_LATENCY (cfg P).

Definition dormant_params : bt_conn_le_subrate_param :=
  {| subrate_min := uint16_t SUBRATE_DORMANT_MIN;
     subrate_max := uint16_t SUBRATE_DORMANT_MAX;
     max_latency := uint16_t SUBRATE_DORMANT_MAX_LATENCY;
     continuation_number := uint16_t SUBRATE_DORMANT_CN;
     supervision_timeout := uint16_t SUBRATE_TIMEOUT |}.

(** The twelve [BUILD_ASSERT]s of the three tiers. *)
Definition build_asserts : bool :=
  (SUBRATE_ACTIVE_MAX >=? SUBRATE_ACTIVE_MIN)
  && (SUBRATE_ACTIVE_MAX <=? 500)
  && (SUBRATE_ACTIVE_CN <? SUBRATE_ACTIVE_MAX)
  && (SUBRATE_TIMEOUT * 2 >? 3 * SUBRATE_ACTIVE_MAX)
  && (SUBRATE_IDLE_MAX >=? SUBRATE_IDLE_MIN)
  && (SUBRATE_IDLE_MAX * (SUBRATE_IDLE_MAX_LATENCY + 1) <=? 500)
  && (SUBRATE_IDLE_CN <? SUBRATE_IDLE_MAX)
  && (SUBRATE_TIMEOUT * 2
      >? 3 * SUBRATE_IDLE_MAX * (SUBRATE_IDLE_MAX_LATENCY + 1))
  && (SUBRATE_DORMANT_MAX >=? SUBRATE_DORMANT_MIN)
  && (SUBRATE_DORMANT_MAX * (SUBRATE_DORMANT_MAX_LATENCY + 1) <=? 500)
  && (SUBRATE_DORMANT_CN <? SUBRATE_DORMANT_MAX)
  && (SUBRATE_TIMEOUT * 2
      >? 3 * SUBRATE_DORMANT_MAX * (SUBRATE_DORMANT_MAX_LATENCY + 1)).

(** *** Calls into the host stack and the kernel *)

Definition bt_conn_get_info (conn : bt_conn) : M bt_conn_info :=
  ret (conn_info conn).

Definition bt_conn_le_subrate_request
    (conn : bt_conn) (params : bt_conn_le_subrate_param) : M Z :=
  fun w =>
    let err := stack_subrate_request P (trace w) conn params in
    (err, with_effect (HCI_subrate_request conn params err) w).

(** The new defaults are in force when the stack accepts them. *)
Definition bt_conn_le_subrate_set_defaults
    (params : bt_conn_le_subrate_param) : M Z :=
  fun w =>
    let err := stack_set_defaults P (trace w) params in
    let w' := with_effect (HCI_set_defaults params err) w in
    (err, if err =? 0 then with_subrate_defaults params w' else w').

Fixpoint foreach_conn
    (func : bt_conn -> bt_conn_le_subrate_param -> M unit)
    (l : list bt_conn) (data : bt_conn_le_subrate_param) : M unit :=
  match l with
  | [] => ret tt
  | conn :: l' => (func conn data ;; foreach_conn func l' data)%M
  end.

(** [bt_conn_foreach]: the callback is run on every connection of the
    given type, one after the other. *)
Definition bt_conn_foreach
    (type : bt_conn_type)
    (func : bt_conn -> bt_conn_le_subrate_param -> M unit)
    (data : bt_conn_le_subrate_param) : M unit :=
  fun w =>
    foreach_conn func
      (filter (fun c => bt_conn_type_eqb (conn_type c) type) (conns w))
      data w.

(** [k_work_cancel_delayable(&dormant_work)]: the item is idle afterwards;
    the result tells whether a pending run was preempted. *)
Definition k_work_cancel_delayable : M bool :=
  fun w =>
    match dormant_work w with
    | WORK_IDLE => (false, w)
    | WORK_SCHEDULED _ => (true, with_dormant_work WORK_IDLE w)
    end.

(** [k_work_schedule(&dormant_work, delay)]: schedules an idle item and
    leaves an already scheduled one as it is. *)
Definition k_work_schedule (delay : N) : M Z :=
  fun w =>
    match dormant_work w with
    | WORK_IDLE => (1, with_dormant_work (WORK_SCHEDULED delay) w)
    | WORK_SCHEDULED _ => (0, w)
    end.

(** *** The functions of subrating.c *)

Definition apply_subrate_to_conn
    (conn : bt_conn) (data : bt_conn_le_subrate_param) : M unit :=
  (let params := data in
   info <- bt_conn_get_info conn ;;
   if bt_conn_role_eqb (role info) BT_CONN_ROLE_CENTRAL
      && bt_conn_state_eqb (state info) BT_CONN_STATE_CONNECTED
   then
     err <- bt_conn_le_subrate_request conn params ;;
     if negb (err =? 0) && negb (err =? - EALREADY (errno P))
     then emit (LOG_WRN_request err)
     else ret tt
   else ret tt)%M.

(** The two assignments of the [switch] in [set_tier]: the parameters and
    the name of a tier. *)
Definition tier_params (tier : subrate_tier) : bt_conn_le_subrate_param :=
  match tier with
  | TIER_ACTIVE => active_params
  | TIER_IDLE => idle_params
  | TIER_DORMANT => dormant_params
  end.

Definition tier_name (tier : subrate_tier) : string :=
  match tier with
  | TIER_ACTIVE => "ACTIVE"
  | TIER_IDLE => "IDLE"
  | TIER_DORMANT => "DORMANT"
  end.

(** The [default] case of the [switch] is not reached: [set_tier] is static
    and its three callers pass enumerators. *)
Definition set_tier (tier : subrate_tier) : M unit :=
  fun w =>
    if subrate_tier_eqb tier (current_tier w) then (tt, w)
    else
      (let params := tier_params tier in
       emit (LOG_INF_tier (tier_name tier) params) ;;
       _ <- bt_conn_le_subrate_set_defaults params ;;
       bt_conn_foreach BT_CONN_TYPE_LE apply_subrate_to_conn params)%M
      (with_current_tier tier w).

Definition dormant_timer_handler : M unit :=
  set_tier TIER_DORMANT.

Definition subrate_active : M unit :=
  (_ <- k_work_cancel_delayable ;;
   set_tier TIER_ACTIVE)%M.

Definition subrate_idle : M unit :=
  (_ <- k_work_cancel_delayable ;;
   set_tier TIER_IDLE ;;
   _ <- k_work_schedule (K_MSEC SUBRATE_DORMANT_DELAY_MS) ;;
   ret tt)%M.

Definition subrating_activity_listener (eh : zmk_event_t) : M Z :=
  match as_zmk_activity_state_changed eh with
  | None => ret (- ENOTSUP (errno P))
  | Some ev_state =>
      match ev_state with
      | ZMK_ACTIVITY_ACTIVE => (subrate_active ;; ret 0)%M
      | ZMK_ACTIVITY_IDLE
      | ZMK_ACTIVITY_SLEEP => (subrate_idle ;; ret 0)%M
      | ZMK_ACTIVITY_OTHER _ =>
          (emit (LOG_WRN_unhandled ev_state) ;; ret (- EINVAL (errno P)))%M
      end
  end.

Definition zmk_sdc_subrating_init : M Z :=
  (err <- bt_conn_le_subrate_set_defaults idle_params ;;
   if negb (err =? 0)
   then emit (LOG_ERR_defaults err) ;; ret err
   else emit LOG_INF_init ;; ret 0)%M.

(** The module's statics as the image starts: [current_tier = TIER_IDLE]
    and an idle [dormant_work]. *)
Definition boot (l : list bt_conn) (defaults : bt_conn_le_subrate_param)
  : world :=
  {| current_tier := TIER_IDLE;
     dormant_work := WORK_IDLE;
     conns := l;
     subrate_defaults := defaults;
     trace := [] |}.

(** *** The hosting runtime *)

(** What the runtime delivers, one at a time: an event for the listener,
    the passing of some milliseconds (after which the work queue runs the
    dormant work if it is due), or a change of the live connections. *)
Inductive input : Type :=
| Event (eh : zmk_event_t)
| Elapse (ms : N)
| Connections (l : list bt_conn).

Definition elapse (ms : N) : M unit :=
  fun w =>
    match dormant_work w with
    | WORK_IDLE => (tt, w)
    | WORK_SCHEDULED remaining =>
        if (remaining <=? ms)%N
        then dormant_timer_handler (with_dormant_work WORK_IDLE w)
        else (tt, with_dormant_work (WORK_SCHEDULED (remaining - ms)) w)
    end.

Definition step (i : input) (w : world) : world :=
  match i with
  | Event eh => exec (subrating_activity_listener eh) w
  | Elapse ms => exec (elapse ms) w
  | Connections l => with_conns l w
  end.

Fixpoint run (inputs : list input) (w : world) : world :=
  match inputs with
  | [] => w
  | i :: rest => run rest (step i w)
  end.

(** Every world passed through, the starting one included. *)
Fixpoint visited (inputs : list input) (w : world) : list world :=
  match inputs with
  | [] => [w]
  | i :: rest => w :: visited rest (step i w)
  end.

End Subrating.

(** ** Observations on a record of effects *)

(** The connections that received a subrate request, in order. *)
Definition request_targets (tr : list effect) : list bt_conn :=
  flat_map (fun e => match e with
                     | HCI_subrate_request c _ _ => [c]
                     | _ => []
                     end) tr.

(** The parameters that were requested, in order. *)
Definition request_params (tr : list effect)
  : list bt_conn_le_subrate_param :=
  flat_map (fun e => match e with
                     | HCI_subrate_request _ p _ => [p]
                     | _ => []
                     end) tr.

(** The codes the stack returned to the subrate requests, in order. *)
Definition request_errs (tr : list effect) : list Z :=
  flat_map (fun e => match e with
                     | HCI_subrate_request _ _ err => [err]
                     | _ => []
                     end) tr.

(** The codes of the "Failed to request subrate" warnings, in order. *)
Definition request_warnings (tr : list effect) : list Z :=
  flat_map (fun e => match e with
                     | LOG_WRN_request err => [err]
                     | _ => []
                     end) tr.

(** The parameters handed to [bt_conn_le_subrate_set_defaults], in order. *)
Definition defaults_calls (tr : list effect)
  : list bt_conn_le_subrate_param :=
  flat_map (fun e => match e with
                     | HCI_set_defaults p _ => [p]
                     | _ => []
                     end) tr.

(** The tier names of the "Subrating tier" log lines, in order. *)
Definition tier_log (tr : list effect) : list string :=
  flat_map (fun e => match e with
                     | LOG_INF_tier name _ => [name]
                     | _ => []
                     end) tr.

(** The calls into the stack, without the log lines. *)
Definition protocol_traffic (tr : list effect) : list effect :=
  filter (fun e => match e with
                   | HCI_set_defaults _ _ | HCI_subrate_request _ _ _ => true
                   | _ => false
                   end) tr.

(** The connections a tier is applied to: role central, state connected. *)
Definition initiator_connected (c : bt_conn) : bool :=
  bt_conn_role_eqb (role (conn_info c)) BT_CONN_ROLE_CENTRAL
  && bt_conn_state_eqb (state (conn_info c)) BT_CONN_STATE_CONNECTED.

Definition is_LE (c : bt_conn) : bool :=
  bt_conn_type_eqb (conn_type c) BT_CONN_TYPE_LE.

(** A request failure that is logged: non-zero and not [-EALREADY]. *)
Definition logged_failure (P : platform) (err : Z) : bool :=
  negb (err =? 0) && negb (err =? - EALREADY (errno P)).

(** What one connection adds to the record when a tier is applied to it:
    nothing for a connection that is not central and connected; else the
    request, followed by a warning when the failure is a logged one. *)
Definition conn_record (P : platform) (tr : list effect) (c : bt_conn)
    (p : bt_conn_le_subrate_param) : list effect :=
  if initiator_connected c then
    let err := stack_subrate_request P tr c p in
    HCI_subrate_request c p err
      :: (if logged_failure P err then [LOG_WRN_request err] else [])
  else [].

(** What a list of connections adds, one connection after the other. *)
Fixpoint walk_record (P : platform) (tr : list effect) (l : list bt_conn)
    (p : bt_conn_le_subrate_param) : list effect :=
  match l with
  | [] => []
  | c :: l' =>
      conn_record P tr c p ++ walk_record P (tr ++ conn_record P tr c p) l' p
  end.

(** What a change to [tier] adds to the record in world [w]: the tier log
    line, the new defaults, then the walk over the LE connections. *)
Definition set_tier_defaults_err (P : platform) (tier : subrate_tier)
    (w : world) : Z :=
  stack_set_defaults P
    (trace w ++ [LOG_INF_tier (tier_name tier) (tier_params P tier)])
    (tier_params P tier).

Definition set_tier_record (P : platform) (tier : subrate_tier) (w : world)
  : list effect :=
  let p := tier_params P tier in
  let err := set_tier_defaults_err P tier w in
  LOG_INF_tier (tier_name tier) p
    :: HCI_set_defaults p err
    :: walk_record P
         (trace w ++ [LOG_INF_tier (tier_name tier) p; HCI_set_defaults p err])
         (filter is_LE (conns w)) p.

(** What [set_tier] adds to the record: nothing when the tier is the
    current one. *)
Definition set_tier_out (P : platform) (tier : subrate_tier) (w : world)
  : list effect :=
  if subrate_tier_eqb tier (current_tier w) then []
  else set_tier_record P tier w.

(** The activity states the listener has a case for. *)
Definition handled_state (st : zmk_activity_state) : bool :=
  match st with
  | ZMK_ACTIVITY_ACTIVE | ZMK_ACTIVITY_IDLE | ZMK_ACTIVITY_SLEEP => true
  | ZMK_ACTIVITY_OTHER _ => false
  end.

Definition handled_event (eh : zmk_event_t) : bool :=
  match as_zmk_activity_state_changed eh with
  | Some st => handled_state st
  | None => false
  end.

Definition idle_family (st : zmk_activity_state) : bool :=
  match st with
  | ZMK_ACTIVITY_IDLE | ZMK_ACTIVITY_SLEEP => true
  | _ => false
  end.

(** An input that is not an activity event the listener acts on. *)
Definition quiet (i : input) : bool :=
  match i with
  | Event eh => negb (handled_event eh)
  | Elapse _ | Connections _ => true
  end.

(** The milliseconds that pass during a list of inputs. *)
Fixpoint elapsed (inputs : list input) : N :=
  match inputs with
  | [] => 0%N
  | Elapse ms :: rest => (ms + elapsed rest)%N
  | _ :: rest => elapsed rest
  end.

Definition DORMANT_DELAY (P : platform) : N :=
  K_MSEC (SUBRATE_DORMANT_DELAY_MS P).

(** ** A sample build and a sample set of connections *)

Module Sample.

Definition config : Kconfig :=
  {| CONFIG_ZMK_BLE_SUBRATE_TIMEOUT := 400;
     CONFIG_ZMK_BLE_SUBRATE_DORMANT_DELAY := 30000;
     CONFIG_ZMK_BLE_SUBRATE_ACTIVE_MIN := 1;
     CONFIG_ZMK_BLE_SUBRATE_ACTIVE_MAX := 2;
     CONFIG_ZMK_BLE_SUBRATE_ACTIVE_CN := 1;
     CONFIG_ZMK_BLE_SUBRATE_IDLE_MIN := 4;
     CONFIG_ZMK_BLE_SUBRATE_IDLE_MAX := 8;
     CONFIG_ZMK_BLE_SUBRATE_IDLE_CN := 2;
     CONFIG_ZMK_BLE_SUBRATE_IDLE_MAX_LATENCY := 4;
     CONFIG_ZMK_BLE_SUBRATE_DORMANT_MIN := 16;
     CONFIG_ZMK_BLE_SUBRATE_DORMANT_MAX := 32;
     CONFIG_ZMK_BLE_SUBRATE_DORMANT_CN := 2;
     CONFIG_ZMK_BLE_SUBRATE_DORMANT_MAX_LATENCY := 4 |}.

Definition errors : errno_h :=
  {| EINVAL := 22; ENOTSUP := 134; EALREADY := 120 |}.

(** A stack that answers [-EALREADY] on connection 1, [-EIO] on
    connection 2 and success elsewhere, and accepts every default. *)
Definition build : platform :=
  {| cfg := config;
     errno := errors;
     stack_subrate_request := fun _ c _ =>
       match handle c with
       | 1%nat => -120
       | 2%nat => -5
       | _ => 0
       end;
     stack_set_defaults := fun _ _ => 0 |}.

Definition central_link (h : nat) : bt_conn :=
  mkConn h BT_CONN_TYPE_LE
         (mkInfo BT_CONN_ROLE_CENTRAL BT_CONN_STATE_CONNECTED).

Definition host_link : bt_conn :=
  mkConn 7 BT_CONN_TYPE_LE
         (mkInfo BT_CONN_ROLE_PERIPHERAL BT_CONN_STATE_CONNECTED).

Definition closing_link : bt_conn :=
  mkConn 8 BT_CONN_TYPE_LE
         (mkInfo BT_CONN_ROLE_CENTRAL BT_CONN_STATE_DISCONNECTING).

Definition links : list bt_conn :=
  [central_link 1; host_link; central_link 2; closing_link; central_link 3].

(** The world as the image starts, with the sample links up. *)
Definition start : world := boot links (idle_params build).

(** The same world with the dormant work one millisecond from running. *)
Definition nearly_due : world := with_dormant_work (WORK_SCHEDULED 1) start.

(** A pause shorter than the dormant delay, during which the links drop. *)
Definition short_pause : list input :=
  [Elapse 10000; Connections []; Elapse 19999].

(** A pause one millisecond short of the dormant delay, with an event of
    another type in the middle. *)
Definition long_pause : list input :=
  [Elapse 10000; Event zmk_other_event; Elapse 19999].

End Sample.

(** ** Further observations *)


(** The configured values that become [uint16_t] fields without a build
    assertion bounding them from that side: no minimum, continuation number
    or latency is negative, and the timeout fits sixteen bits. *)
Definition config_in_range (P : platform) : bool :=
  (0 <=? SUBRATE_ACTIVE_MIN P) && (0 <=? SUBRATE_ACTIVE_CN P)
  && (0 <=? SUBRATE_IDLE_MIN P) && (0 <=? SUBRATE_IDLE_CN P)
  && (0 <=? SUBRATE_IDLE_MAX_LATENCY P)
  && (0 <=? SUBRATE_DORMANT_MIN P) && (0 <=? SUBRATE_DORMANT_CN P)
  && (0 <=? SUBRATE_DORMANT_MAX_LATENCY P)
  && (SUBRATE_TIMEOUT P <? 65536).

(** The parameters printed in the "Subrating tier" log lines, in order. *)
Definition tier_log_params (tr : list effect)
  : list bt_conn_le_subrate_param :=
  flat_map (fun e => match e with
                     | LOG_INF_tier _ p => [p]
                     | _ => []
                     end) tr.

(** Every name in the list differs from the one before it, [prev] being
    the one before the first. *)
Fixpoint changes_only (prev : string) (names : list string) : Prop :=
  match names with
  | [] => True
  | name :: rest => name <> prev /\ changes_only name rest
  end.

(** What an input that leaves the tier as it is adds to the record: the
    warning of the listener's [default] case, or nothing. *)
Definition unhandled_log (i : input) : list effect :=
  match i with
  | Event (zmk_activity_state_changed (ZMK_ACTIVITY_OTHER raw)) =>
      [LOG_WRN_unhandled (ZMK_ACTIVITY_OTHER raw)]
  | _ => []
  end.

(** The dormant work is scheduled only in the IDLE tier, and for no longer
    than the dormant delay. *)
Definition timer_consistent (P : platform) (w : world) : Prop :=
  match dormant_work w with
  | WORK_IDLE => True
  | WORK_SCHEDULED remaining =>
      current_tier w = TIER_IDLE /\ (remaining <= DORMANT_DELAY P)%N
  end.

(** ** A sample build whose stack rejects every change of the defaults *)

Module Rejecting.

(** The sample configuration against a stack that answers [-EINVAL] to
    every change of the defaults and success to every request. *)
Definition build : platform :=
  {| cfg := Sample.config;
     errno := Sample.errors;
     stack_subrate_request := fun _ _ _ => 0;
     stack_set_defaults := fun _ _ => -22 |}.

(** The world as the image starts, the stack holding defaults of its own. *)
Definition start : world :=
  boot Sample.links (mkParam 1 1 0 0 3200).

End Rejecting.

(** The sample world in the DORMANT tier. *)
Definition sample_dormant : world :=
  with_current_tier TIER_DORMANT Sample.start.

(** ** The variant of the module without tiers *)

(** The second listing of subrating.c: two parameter sets, installed and
    requested anew on every activity event; no current tier and no dormant
    work. *)
Module Untiered.

Record Kconfig : Type := mkKconfig {
  CONFIG_ZMK_BLE_SUBRATE_IDLE_MIN : Z;
  CONFIG_ZMK_BLE_SUBRATE_IDLE_MAX : Z;
  CONFIG_ZMK_BLE_SUBRATE_IDLE_CN : Z;
  CONFIG_ZMK_BLE_SUBRATE_MAX_LATENCY : Z;
  CONFIG_ZMK_BLE_SUBRATE_TIMEOUT : Z;
  CONFIG_ZMK_BLE_SUBRATE_ACTIVE_MIN : Z;
  CONFIG_ZMK_BLE_SUBRATE_ACTIVE_MAX : Z;
  CONFIG_ZMK_BLE_SUBRATE_ACTIVE_CN : Z
}.

(** Calls into the host stack and log lines of this variant. *)
Inductive effect : Type :=
| HCI_set_defaults (params : bt_conn_le_subrate_param) (err : Z)
| HCI_subrate_request (conn : bt_conn) (params : bt_conn_le_subrate_param)
                      (err : Z)
| LOG_DBG_active (min max cn : Z)
| LOG_DBG_idle (min max cn : Z)
| LOG_WRN_active (err : Z)
| LOG_WRN_idle (err : Z)
| LOG_WRN_unhandled (st : zmk_activity_state)
| LOG_ERR_defaults (err : Z)
| LOG_INF_defaults (min max cn : Z).

(** The variant keeps no state of its own: its world is the stack's. *)
Record world : Type := mkWorld {
  conns : list bt_conn;
  subrate_defaults : bt_conn_le_subrate_param;
  trace : list effect
}.

Record platform : Type := mkPlatform {
  cfg : Kconfig;
  errno : errno_h;
  stack_subrate_request :
    list effect -> bt_conn -> bt_conn_le_subrate_param -> Z;
  stack_set_defaults :
    list effect -> bt_conn_le_subrate_param -> Z
}.

Definition with_subrate_defaults (p : bt_conn_le_subrate_param) (w : world)
  : world :=
  mkWorld (conns w) p (trace w).

Definition with_effect (e : effect) (w : world) : world :=
  mkWorld (conns w) (subrate_defaults w) (trace w ++ [e]).

Definition M (A : Type) : Type := world -> A * world.

Definition ret {A : Type} (a : A) : M A := fun w => (a, w).

Definition bind {A B : Type} (c : M A) (k : A -> M B) : M B :=
  fun w => k (fst (c w)) (snd (c w)).

Declare Scope U_scope.
Delimit Scope U_scope with U.
Notation "x <- c ;; k" := (bind c (fun x => k))
  (at level 61, c at next level, right associativity) : U_scope.
Notation "c ;; k" := (bind c (fun _ => k))
  (at level 61, right associativity) : U_scope.

Definition exec {A : Type} (c : M A) (w : world) : world := snd (c w).
Definition result {A : Type} (c : M A) (w : world) : A := fst (c w).

Definition emit (e : effect) : M unit := fun w => (tt, with_effect e w).

Definition emitted (w w' : world) : list effect :=
  skipn (List.length (trace w)) (trace w').

Section Variant.

Variable Q : platform.

Definition SUBRATE_IDLE_MIN : Z := CONFIG_ZMK_BLE_SUBRATE_IDLE_MIN (cfg Q).
Definition SUBRATE_IDLE_MAX : Z := CONFIG_ZMK_BLE_SUBRATE_IDLE_MAX (cfg Q).
Definition SUBRATE_IDLE_CN : Z := CONFIG_ZMK_BLE_SUBRATE_IDLE_CN (cfg Q).
Definition SUBRATE_MAX_LATENCY : Z :=
  CONFIG_ZMK_BLE_SUBRATE_MAX_LATENCY (cfg Q).
Definition SUBRATE_TIMEOUT : Z := CONFIG_ZMK_BLE_SUBRATE_TIMEOUT (cfg Q).

Definition idle_params : bt_conn_le_subrate_param :=
  {| subrate_min := uint16_t SUBRATE_IDLE_MIN;
     subrate_max := uint16_t SUBRATE_IDLE_MAX;
     max_latency := uint16_t SUBRATE_MAX_LATENCY;
     continuation_number := uint16_t SUBRATE_IDLE_CN;
     supervision_timeout := uint16_t SUBRATE_TIMEOUT |}.

Definition SUBRATE_ACTIVE_MIN : Z := CONFIG_ZMK_BLE_SUBRATE_ACTIVE_MIN (cfg Q).
Definition SUBRATE_ACTIVE_MAX : Z := CONFIG_ZMK_BLE_SUBRATE_ACTIVE_MAX (cfg Q).
Definition SUBRATE_ACTIVE_CN : Z := CONFIG_ZMK_BLE_SUBRATE_ACTIVE_CN (cfg Q).

Definition active_params : bt_conn_le_subrate_param :=
  {| subrate_min := uint16_t SUBRATE_ACTIVE_MIN;
     subrate_max := uint16_t SUBRATE_ACTIVE_MAX;
     max_latency := uint16_t 0;
     continuation_number := uint16_t SUBRATE_ACTIVE_CN;
     supervision_timeout := uint16_t SUBRATE_TIMEOUT |}.

(** The eight [BUILD_ASSERT]s of the central build. *)
Definition build_asserts : bool :=
  (SUBRATE_IDLE_MAX >=? SUBRATE_IDLE_MIN)
  && (SUBRATE_IDLE_MAX * (SUBRATE_MAX_LATENCY + 1) <=? 500)
  && (SUBRATE_IDLE_CN <? SUBRATE_IDLE_MAX)
  && (SUBRATE_TIMEOUT * 2 >? 3 * SUBRATE_IDLE_MAX * (SUBRATE_MAX_LATENCY + 1))
  && (SUBRATE_ACTIVE_MAX >=? SUBRATE_ACTIVE_MIN)
  && (SUBRATE_ACTIVE_MAX * 1 <=? 500)
  && (SUBRATE_ACTIVE_CN <? SUBRATE_ACTIVE_MAX)
  && (SUBRATE_TIMEOUT * 2 >? 3 * SUBRATE_ACTIVE_MAX).

Definition bt_conn_get_info (conn : bt_conn) : M bt_conn_info :=
  ret (conn_info conn).

Definition bt_conn_le_subrate_request
    (conn : bt_conn) (params : bt_conn_le_subrate_param) : M Z :=
  fun w =>
    let err := stack_subrate_request Q (trace w) conn params in
    (err, with_effect (HCI_subrate_request conn params err) w).

Definition bt_conn_le_subrate_set_defaults
    (params : bt_conn_le_subrate_param) : M Z :=
  fun w =>
    let err := stack_set_defaults Q (trace w) params in
    let w' := with_effect (HCI_set_defaults params err) w in
    (err, if err =? 0 then with_subrate_defaults params w' else w').

(** The callbacks of this variant get [NULL] as their data. *)
Fixpoint foreach_conn
    (func : bt_conn -> option bt_conn_le_subrate_param -> M unit)
    (l : list bt_conn) (data : option bt_conn_le_subrate_param) : M unit :=
  match l with
  | [] => ret tt
  | conn :: l' => (func conn data ;; foreach_conn func l' data)%U
  end.

Definition bt_conn_foreach
    (type : bt_conn_type)
    (func : bt_conn -> option bt_conn_le_subrate_param -> M unit)
    (data : option bt_conn_le_subrate_param) : M unit :=
  fun w =>
    foreach_conn func
      (filter (fun c => bt_conn_type_eqb (conn_type c) type) (conns w))
      data w.

Definition set_active_subrate
    (conn : bt_conn) (data : option bt_conn_le_subrate_param) : M unit :=
  (info <- bt_conn_get_info conn ;;
   if bt_conn_role_eqb (role info) BT_CONN_ROLE_CENTRAL
      && bt_conn_state_eqb (state info) BT_CONN_STATE_CONNECTED
   then
     err <- bt_conn_le_subrate_request conn active_params ;;
     if negb (err =? 0) && negb (err =? - EALREADY (errno Q))
     then emit (LOG_WRN_active err)
     else ret tt
   else ret tt)%U.

Definition set_idle_subrate
    (conn : bt_conn) (data : option bt_conn_le_subrate_param) : M unit :=
  (info <- bt_conn_get_info conn ;;
   if bt_conn_role_eqb (role info) BT_CONN_ROLE_CENTRAL
      && bt_conn_state_eqb (state info) BT_CONN_STATE_CONNECTED
   then
     err <- bt_conn_le_subrate_request conn idle_params ;;
     if negb (err =? 0) && negb (err =? - EALREADY (errno Q))
     then emit (LOG_WRN_idle err)
     else ret tt
   else ret tt)%U.

Definition subrate_active : M unit :=
  (emit (LOG_DBG_active SUBRATE_ACTIVE_MIN SUBRATE_ACTIVE_MAX
                        SUBRATE_ACTIVE_CN) ;;
   _ <- bt_conn_le_subrate_set_defaults active_params ;;
   bt_conn_foreach BT_CONN_TYPE_LE set_active_subrate None)%U.

Definition subrate_idle : M unit :=
  (emit (LOG_DBG_idle SUBRATE_IDLE_MIN SUBRATE_IDLE_MAX SUBRATE_IDLE_CN) ;;
   _ <- bt_conn_le_subrate_set_defaults idle_params ;;
   bt_conn_foreach BT_CONN_TYPE_LE set_idle_subrate None)%U.

Definition subrating_activity_listener (eh : zmk_event_t) : M Z :=
  match as_zmk_activity_state_changed eh with
  | None => ret (- ENOTSUP (errno Q))
  | Some ev_state =>
      match ev_state with
      | ZMK_ACTIVITY_ACTIVE => (subrate_active ;; ret 0)%U
      | ZMK_ACTIVITY_IDLE
      | ZMK_ACTIVITY_SLEEP => (subrate_idle ;; ret 0)%U
      | ZMK_ACTIVITY_OTHER _ =>
          (emit (LOG_WRN_unhandled ev_state) ;; ret (- EINVAL (errno Q)))%U
      end
  end.

Definition zmk_sdc_subrating_init : M Z :=
  (err <- bt_conn_le_subrate_set_defaults idle_params ;;
   if negb (err =? 0)
   then emit (LOG_ERR_defaults err) ;; ret err
   else emit (LOG_INF_defaults SUBRATE_IDLE_MIN SUBRATE_IDLE_MAX
                               SUBRATE_IDLE_CN) ;; ret 0)%U.

(** The events delivered one after the other. *)
Fixpoint run (events : list zmk_event_t) (w : world) : world :=
  match events with
  | [] => w
  | eh :: rest => run rest (exec (subrating_activity_listener eh) w)
  end.

(** The parameters an event applies. *)
Definition event_params (eh : zmk_event_t)
  : option bt_conn_le_subrate_param :=
  match as_zmk_activity_state_changed eh with
  | Some ZMK_ACTIVITY_ACTIVE => Some active_params
  | Some ZMK_ACTIVITY_IDLE | Some ZMK_ACTIVITY_SLEEP => Some idle_params
  | _ => None
  end.

(** What applying [p] adds to the record for one connection and for a
    list of connections, [warn] being the warning of the callback. *)
Definition conn_record (warn : Z -> effect) (tr : list effect) (c : bt_conn)
    (p : bt_conn_le_subrate_param) : list effect :=
  if initiator_connected c then
    let err := stack_subrate_request Q tr c p in
    HCI_subrate_request c p err
      :: (if negb (err =? 0) && negb (err =? - EALREADY (errno Q))
          then [warn err] else [])
  else [].

Fixpoint walk_record (warn : Z -> effect) (tr : list effect)
    (l : list bt_conn) (p : bt_conn_le_subrate_param) : list effect :=
  match l with
  | [] => []
  | c :: l' =>
      conn_record warn tr c p
        ++ walk_record warn (tr ++ conn_record warn tr c p) l' p
  end.

(** What applying [p] to the stack and to every connection adds to the
    record, [dbg] being the debug line that comes first. *)
Definition apply_record (dbg : effect) (warn : Z -> effect)
    (p : bt_conn_le_subrate_param) (w : world) : list effect :=
  let err := stack_set_defaults Q (trace w ++ [dbg]) p in
  dbg :: HCI_set_defaults p err
      :: walk_record warn (trace w ++ [dbg; HCI_set_defaults p err])
           (filter is_LE (conns w)) p.

End Variant.

Definition request_targets (tr : list effect) : list bt_conn :=
  flat_map (fun e => match e with
                     | HCI_subrate_request c _ _ => [c]
                     | _ => []
                     end) tr.

Definition request_params (tr : list effect)
  : list bt_conn_le_subrate_param :=
  flat_map (fun e => match e with
                     | HCI_subrate_request _ p _ => [p]
                     | _ => []
                     end) tr.

Definition request_errs (tr : list effect) : list Z :=
  flat_map (fun e => match e with
                     | HCI_subrate_request _ _ err => [err]
                     | _ => []
                     end) tr.

Definition request_warnings (tr : list effect) : list Z :=
  flat_map (fun e => match e with
                     | LOG_WRN_active err | LOG_WRN_idle err => [err]
                     | _ => []
                     end) tr.

Definition defaults_calls (tr : list effect)
  : list bt_conn_le_subrate_param :=
  flat_map (fun e => match e with
                     | HCI_set_defaults p _ => [p]
                     | _ => []
                     end) tr.

(** The configured values that become [uint16_t] fields without a build
    assertion bounding them from that side. *)
Definition config_in_range (Q : platform) : bool :=
  (0 <=? SUBRATE_IDLE_MIN Q) && (0 <=? SUBRATE_IDLE_CN Q)
  && (0 <=? SUBRATE_MAX_LATENCY Q)
  && (0 <=? SUBRATE_ACTIVE_MIN Q) && (0 <=? SUBRATE_ACTIVE_CN Q)
  && (SUBRATE_TIMEOUT Q <? 65536).

(** The parameters a list of events applies, one set per handled event. *)
Definition applied_params (Q : platform) (events : list zmk_event_t)
  : list bt_conn_le_subrate_param :=
  flat_map (fun eh => match event_params Q eh with
                      | Some p => [p]
                      | None => []
                      end) events.

(** The sample configuration and stack for this variant. *)
Definition sample_build : platform :=
  {| cfg := {| CONFIG_ZMK_BLE_SUBRATE_IDLE_MIN := 4;
               CONFIG_ZMK_BLE_SUBRATE_IDLE_MAX := 8;
               CONFIG_ZMK_BLE_SUBRATE_IDLE_CN := 2;
               CONFIG_ZMK_BLE_SUBRATE_MAX_LATENCY := 4;
               CONFIG_ZMK_BLE_SUBRATE_TIMEOUT := 400;
               CONFIG_ZMK_BLE_SUBRATE_ACTIVE_MIN := 1;
               CONFIG_ZMK_BLE_SUBRATE_ACTIVE_MAX := 2;
               CONFIG_ZMK_BLE_SUBRATE_ACTIVE_CN := 1 |};
     errno := Sample.errors;
     stack_subrate_request := fun _ c _ =>
       match handle c with
       | 1%nat => -120
       | 2%nat => -5
       | _ => 0
       end;
     stack_set_defaults := fun _ _ => 0 |}.

Definition sample_start : world :=
  mkWorld Sample.links (idle_params sample_build) [].

End Untiered.

(** The two variants are configured alike: the same values for the symbols
    they share, the one latency of the variant without tiers being the
    IDLE latency of the tiered one, and the same error numbers. *)
Definition configured_alike (P : platform) (Q : Untiered.platform) : Prop :=
  SUBRATE_ACTIVE_MIN P = Untiered.SUBRATE_ACTIVE_MIN Q
  /\ SUBRATE_ACTIVE_MAX P = Untiered.SUBRATE_ACTIVE_MAX Q
  /\ SUBRATE_ACTIVE_CN P = Untiered.SUBRATE_ACTIVE_CN Q
  /\ SUBRATE_IDLE_MIN P = Untiered.SUBRATE_IDLE_MIN Q
  /\ SUBRATE_IDLE_MAX P = Untiered.SUBRATE_IDLE_MAX Q
  /\ SUBRATE_IDLE_CN P = Untiered.SUBRATE_IDLE_CN Q
  /\ SUBRATE_IDLE_MAX_LATENCY P = Untiered.SUBRATE_MAX_LATENCY Q
  /\ SUBRATE_TIMEOUT P = Untiered.SUBRATE_TIMEOUT Q
  /\ errno P = Untiered.errno Q.

(** ** Properties *)

Section Properties.

Variable P : platform.

(** *** Records of effects *)

Lemma emitted_app (w w' : world) (out : list effect) :
  trace w' = trace w ++ out -> emitted w w' = out.
Proof.
  intros H. unfold emitted. rewrite H.
  rewrite skipn_app, skipn_all, Nat.sub_diag. reflexivity.
Qed.

Lemma emitted_refl (w : world) : emitted w w = [].
Proof. apply emitted_app. now rewrite app_nil_r. Qed.

Lemma subrate_tier_eqb_eq (a b : subrate_tier) :
  subrate_tier_eqb a b = true <-> a = b.
Proof. destruct a, b; simpl; split; congruence. Qed.

Lemma subrate_tier_eqb_neq (a b : subrate_tier) :
  subrate_tier_eqb a b = false <-> a <> b.
Proof. destruct a, b; simpl; split; congruence. Qed.

Lemma initiator_connected_spec (c : bt_conn) :
  initiator_connected c = true <->
  role (conn_info c) = BT_CONN_ROLE_CENTRAL
  /\ state (conn_info c) = BT_CONN_STATE_CONNECTED.
Proof.
  unfold initiator_connected.
  destruct (role (conn_info c)), (state (conn_info c)); simpl;
    intuition congruence.
Qed.

Lemma is_LE_spec (c : bt_conn) :
  is_LE c = true <-> conn_type c = BT_CONN_TYPE_LE.
Proof.
  unfold is_LE. destruct (conn_type c); simpl; intuition congruence.
Qed.

(** *** One connection *)

Lemma apply_subrate_to_conn_spec (c : bt_conn)
    (p : bt_conn_le_subrate_param) (w : world) :
  exec (apply_subrate_to_conn P c p) w =
  mkWorld (current_tier w) (dormant_work w) (conns w) (subrate_defaults w)
          (trace w ++ conn_record P (trace w) c p).
Proof.
  unfold exec, apply_subrate_to_conn, conn_record, initiator_connected,
    logged_failure, bind, bt_conn_get_info, ret,
    bt_conn_le_subrate_request, emit, with_effect.
  cbn [fst snd].
  destruct (bt_conn_role_eqb _ _ && bt_conn_state_eqb _ _); cbn.
  - destruct (negb _ && negb _); cbn.
    + now rewrite <- app_assoc.
    + reflexivity.
  - rewrite app_nil_r. now destruct w.
Qed.

(** *** The walk over the connections *)

Lemma foreach_conn_spec (l : list bt_conn)
    (p : bt_conn_le_subrate_param) (w : world) :
  exec (foreach_conn (apply_subrate_to_conn P) l p) w =
  mkWorld (current_tier w) (dormant_work w) (conns w) (subrate_defaults w)
          (trace w ++ walk_record P (trace w) l p).
Proof.
  revert w. induction l as [|c l IH]; intros w; cbn [foreach_conn].
  - unfold exec, ret. cbn. rewrite app_nil_r. now destruct w.
  - unfold exec, bind in *. cbn [fst snd].
    fold (exec (apply_subrate_to_conn P c p) w).
    rewrite IH, apply_subrate_to_conn_spec. cbn.
    now rewrite <- app_assoc.
Qed.

Lemma walk_record_targets (tr : list effect) (l : list bt_conn)
    (p : bt_conn_le_subrate_param) :
  request_targets (walk_record P tr l p) = filter initiator_connected l.
Proof.
  revert tr. induction l as [|c l IH]; intros tr; cbn; [reflexivity|].
  unfold request_targets in *. rewrite flat_map_app, IH.
  unfold conn_record. destruct (initiator_connected c); cbn.
  - now destruct (logged_failure _ _).
  - reflexivity.
Qed.

Lemma walk_record_params (tr : list effect) (l : list bt_conn)
    (p : bt_conn_le_subrate_param) :
  request_params (walk_record P tr l p)
  = map (fun _ => p) (filter initiator_connected l).
Proof.
  revert tr. induction l as [|c l IH]; intros tr; cbn; [reflexivity|].
  unfold request_params in *. rewrite flat_map_app, IH.
  unfold conn_record. destruct (initiator_connected c); cbn.
  - now destruct (logged_failure _ _).
  - reflexivity.
Qed.

Lemma walk_record_warnings (tr : list effect) (l : list bt_conn)
    (p : bt_conn_le_subrate_param) :
  request_warnings (walk_record P tr l p)
  = filter (logged_failure P) (request_errs (walk_record P tr l p)).
Proof.
  revert tr. induction l as [|c l IH]; intros tr; cbn; [reflexivity|].
  unfold request_warnings, request_errs in *.
  rewrite !flat_map_app, filter_app, IH. f_equal.
  unfold conn_record. destruct (initiator_connected c); cbn; [|reflexivity].
  destruct (logged_failure _ _) eqn:E; cbn; rewrite ?E; reflexivity.
Qed.

Lemma walk_record_no_defaults (tr : list effect) (l : list bt_conn)
    (p : bt_conn_le_subrate_param) :
  defaults_calls (walk_record P tr l p) = []
  /\ tier_log (walk_record P tr l p) = [].
Proof.
  revert tr. induction l as [|c l IH]; intros tr; cbn; [now split|].
  unfold defaults_calls, tier_log in *. rewrite !flat_map_app.
  destruct (IH (tr ++ conn_record P tr c p)) as [-> ->].
  unfold conn_record. destruct (initiator_connected c); cbn; [|now split].
  now destruct (logged_failure _ _).
Qed.

(** *** The apply routine *)

Lemma set_tier_same (tier : subrate_tier) (w : world) :
  tier = current_tier w -> set_tier P tier w = (tt, w).
Proof.
  intros ->. unfold set_tier.
  now rewrite (proj2 (subrate_tier_eqb_eq _ _) eq_refl).
Qed.

Lemma set_tier_change (tier : subrate_tier) (w : world) :
  tier <> current_tier w ->
  exec (set_tier P tier) w =
  mkWorld tier (dormant_work w) (conns w)
          (if set_tier_defaults_err P tier w =? 0
           then tier_params P tier else subrate_defaults w)
          (trace w ++ set_tier_record P tier w).
Proof.
  intros H. apply subrate_tier_eqb_neq in H.
  unfold exec, set_tier. rewrite H.
  unfold bind. cbn [fst snd].
  unfold bt_conn_foreach.
  match goal with
  | |- snd (foreach_conn ?f ?l ?p ?w0) = _ =>
      change (snd (foreach_conn f l p w0)) with (exec (foreach_conn f l p) w0)
  end.
  rewrite foreach_conn_spec.
  unfold set_tier_record, set_tier_defaults_err, is_LE,
    bt_conn_le_subrate_set_defaults, emit.
  cbn [fst snd].
  destruct (stack_set_defaults P _ _ =? 0); cbn;
    rewrite <- !app_assoc; reflexivity.
Qed.

Lemma set_tier_record_targets (tier : subrate_tier) (w : world) :
  request_targets (set_tier_record P tier w)
  = filter initiator_connected (filter is_LE (conns w)).
Proof.
  unfold set_tier_record. cbn -[walk_record].
  apply walk_record_targets.
Qed.

Lemma set_tier_record_params (tier : subrate_tier) (w : world) :
  request_params (set_tier_record P tier w)
  = map (fun _ => tier_params P tier)
        (filter initiator_connected (filter is_LE (conns w))).
Proof.
  unfold set_tier_record. cbn -[walk_record].
  apply walk_record_params.
Qed.

Lemma set_tier_record_warnings (tier : subrate_tier) (w : world) :
  request_warnings (set_tier_record P tier w)
  = filter (logged_failure P) (request_errs (set_tier_record P tier w)).
Proof.
  unfold set_tier_record. cbn -[walk_record].
  apply walk_record_warnings.
Qed.

Lemma set_tier_record_defaults (tier : subrate_tier) (w : world) :
  defaults_calls (set_tier_record P tier w) = [tier_params P tier].
Proof.
  unfold set_tier_record. cbn -[walk_record]. f_equal.
  apply walk_record_no_defaults.
Qed.

Lemma set_tier_record_tier_log (tier : subrate_tier) (w : world) :
  tier_log (set_tier_record P tier w) = [tier_name tier].
Proof.
  unfold set_tier_record. cbn -[walk_record]. f_equal.
  apply walk_record_no_defaults.
Qed.

Lemma set_tier_current_tier (tier : subrate_tier) (w : world) :
  current_tier (exec (set_tier P tier) w) = tier.
Proof.
  destruct (subrate_tier_eqb tier (current_tier w)) eqn:E.
  - apply subrate_tier_eqb_eq in E. unfold exec.
    now rewrite set_tier_same.
  - apply subrate_tier_eqb_neq in E. now rewrite set_tier_change.
Qed.

Lemma set_tier_dormant_work (tier : subrate_tier) (w : world) :
  dormant_work (exec (set_tier P tier) w) = dormant_work w.
Proof.
  destruct (subrate_tier_eqb tier (current_tier w)) eqn:E.
  - apply subrate_tier_eqb_eq in E. unfold exec.
    now rewrite set_tier_same.
  - apply subrate_tier_eqb_neq in E. now rewrite set_tier_change.
Qed.

Lemma set_tier_conns (tier : subrate_tier) (w : world) :
  conns (exec (set_tier P tier) w) = conns w.
Proof.
  destruct (subrate_tier_eqb tier (current_tier w)) eqn:E.
  - apply subrate_tier_eqb_eq in E. unfold exec.
    now rewrite set_tier_same.
  - apply subrate_tier_eqb_neq in E. now rewrite set_tier_change.
Qed.

Lemma set_tier_trace (tier : subrate_tier) (w : world) :
  trace (exec (set_tier P tier) w) = trace w ++ set_tier_out P tier w.
Proof.
  unfold set_tier_out.
  destruct (subrate_tier_eqb tier (current_tier w)) eqn:E.
  - apply subrate_tier_eqb_eq in E. unfold exec.
    now rewrite set_tier_same, app_nil_r.
  - apply subrate_tier_eqb_neq in E. now rewrite set_tier_change.
Qed.

Lemma set_tier_out_targets (tier : subrate_tier) (w : world) (c : bt_conn) :
  In c (request_targets (set_tier_out P tier w)) ->
  In c (conns w) /\ is_LE c = true /\ initiator_connected c = true.
Proof.
  unfold set_tier_out.
  destruct (subrate_tier_eqb tier (current_tier w)); [intros []|].
  rewrite set_tier_record_targets. intros H.
  apply filter_In in H. destruct H as [H Hic].
  apply filter_In in H. tauto.
Qed.

Lemma logged_failure_spec (err : Z) :
  logged_failure P err = true <-> err <> 0 /\ err <> - EALREADY (errno P).
Proof.
  unfold logged_failure.
  rewrite andb_true_iff, !negb_true_iff, !Z.eqb_neq. tauto.
Qed.

(** *** The listener and the timer *)

Lemma k_work_cancel_delayable_spec (w : world) :
  exec k_work_cancel_delayable w = with_dormant_work WORK_IDLE w.
Proof.
  unfold exec, k_work_cancel_delayable.
  destruct w as [t [|r] l d tr]; reflexivity.
Qed.

Lemma subrate_active_spec (w : world) :
  exec (subrate_active P) w
  = exec (set_tier P TIER_ACTIVE) (with_dormant_work WORK_IDLE w).
Proof.
  unfold subrate_active, exec, bind. cbn [fst snd].
  fold (exec k_work_cancel_delayable w).
  now rewrite k_work_cancel_delayable_spec.
Qed.

Lemma subrate_idle_spec (w : world) :
  exec (subrate_idle P) w
  = with_dormant_work (WORK_SCHEDULED (DORMANT_DELAY P))
      (exec (set_tier P TIER_IDLE) (with_dormant_work WORK_IDLE w)).
Proof.
  unfold subrate_idle, exec, bind, ret. cbn [fst snd].
  fold (exec k_work_cancel_delayable w).
  rewrite k_work_cancel_delayable_spec.
  fold (exec (set_tier P TIER_IDLE) (with_dormant_work WORK_IDLE w)).
  unfold k_work_schedule.
  rewrite set_tier_dormant_work. reflexivity.
Qed.

Lemma listener_active_spec (w : world) :
  subrating_activity_listener P
    (zmk_activity_state_changed ZMK_ACTIVITY_ACTIVE) w
  = (0, exec (set_tier P TIER_ACTIVE) (with_dormant_work WORK_IDLE w)).
Proof.
  cbn. unfold bind, ret. cbn [fst snd].
  fold (exec (subrate_active P) w). now rewrite subrate_active_spec.
Qed.

Lemma listener_idle_spec (st : zmk_activity_state) (w : world) :
  idle_family st = true ->
  subrating_activity_listener P (zmk_activity_state_changed st) w
  = (0, with_dormant_work (WORK_SCHEDULED (DORMANT_DELAY P))
          (exec (set_tier P TIER_IDLE) (with_dormant_work WORK_IDLE w))).
Proof.
  intros H. destruct st; try discriminate H; cbn;
    unfold bind, ret; cbn [fst snd];
    fold (exec (subrate_idle P) w); now rewrite subrate_idle_spec.
Qed.

Lemma listener_unhandled_spec (eh : zmk_event_t) (w : world) :
  handled_event eh = false ->
  exists out,
    exec (subrating_activity_listener P eh) w
    = mkWorld (current_tier w) (dormant_work w) (conns w)
              (subrate_defaults w) (trace w ++ out)
    /\ tier_log out = []
    /\ protocol_traffic out = []
    /\ request_targets out = [].
Proof.
  intros H. destruct eh as [[| | |raw]|]; try discriminate H.
  - exists [LOG_WRN_unhandled (ZMK_ACTIVITY_OTHER raw)]. cbn.
    repeat split.
  - exists []. cbn. rewrite app_nil_r. destruct w. cbn.
    repeat split.
Qed.

Lemma listener_unhandled_result (eh : zmk_event_t) (w : world) :
  handled_event eh = false ->
  result (subrating_activity_listener P eh) w = - EINVAL (errno P)
  \/ result (subrating_activity_listener P eh) w = - ENOTSUP (errno P).
Proof.
  intros H. destruct eh as [[| | |raw]|]; try discriminate H.
  - now left.
  - now right.
Qed.

(** *** Runs *)

Lemma elapse_idle (ms : N) (w : world) :
  dormant_work w = WORK_IDLE -> exec (elapse P ms) w = w.
Proof. intros H. unfold exec, elapse. now rewrite H. Qed.

Lemma elapse_pending (ms r : N) (w : world) :
  dormant_work w = WORK_SCHEDULED r ->
  (ms < r)%N ->
  exec (elapse P ms) w = with_dormant_work (WORK_SCHEDULED (r - ms)) w.
Proof.
  intros H Hlt. unfold exec, elapse. rewrite H.
  now rewrite (proj2 (N.leb_gt r ms) Hlt).
Qed.

Lemma elapse_due (ms r : N) (w : world) :
  dormant_work w = WORK_SCHEDULED r ->
  (r <= ms)%N ->
  exec (elapse P ms) w
  = exec (set_tier P TIER_DORMANT) (with_dormant_work WORK_IDLE w).
Proof.
  intros H Hle. unfold exec, elapse. rewrite H.
  now rewrite (proj2 (N.leb_le r ms) Hle).
Qed.

Lemma tier_log_app (a b : list effect) :
  tier_log (a ++ b) = tier_log a ++ tier_log b.
Proof. apply flat_map_app. Qed.

Lemma set_tier_tier_log (tier : subrate_tier) (w : world) :
  tier_log (trace (exec (set_tier P tier) w))
  = tier_log (trace w)
    ++ (if subrate_tier_eqb tier (current_tier w) then []
        else [tier_name tier]).
Proof.
  rewrite set_tier_trace, tier_log_app. f_equal.
  unfold set_tier_out.
  destruct (subrate_tier_eqb tier (current_tier w)); [reflexivity|].
  apply set_tier_record_tier_log.
Qed.

Lemma step_trace (i : input) (w : world) :
  exists out,
    trace (step P i w) = trace w ++ out
    /\ Forall (fun c => initiator_connected c = true) (request_targets out).
Proof.
  assert (Hset : forall tier w0,
             Forall (fun c => initiator_connected c = true)
                    (request_targets (set_tier_out P tier w0))).
  { intros tier w0. apply Forall_forall. intros c Hc.
    now apply set_tier_out_targets in Hc. }
  destruct i as [eh|ms|l]; cbn [step].
  - destruct (handled_event eh) eqn:H.
    + destruct eh as [[| | |raw]|]; try discriminate H; unfold exec.
      * rewrite listener_active_spec. cbn [snd].
        rewrite set_tier_trace. eauto.
      * rewrite listener_idle_spec by reflexivity. cbn [snd].
        cbn [with_dormant_work trace]. rewrite set_tier_trace. eauto.
      * rewrite listener_idle_spec by reflexivity. cbn [snd].
        cbn [with_dormant_work trace]. rewrite set_tier_trace. eauto.
    + destruct (listener_unhandled_spec eh w H) as (out & -> & _ & _ & Hr).
      exists out. rewrite Hr. cbn. auto.
  - destruct (dormant_work w) as [|r] eqn:D.
    + rewrite elapse_idle by assumption. exists []. cbn.
      now rewrite app_nil_r.
    + destruct (N.leb_spec r ms).
      * rewrite (elapse_due ms r) by assumption.
        rewrite set_tier_trace. eauto.
      * rewrite (elapse_pending ms r) by assumption.
        exists []. cbn. now rewrite app_nil_r.
  - exists []. cbn. now rewrite app_nil_r.
Qed.

Lemma run_trace (inputs : list input) (w : world) :
  exists out,
    trace (run P inputs w) = trace w ++ out
    /\ Forall (fun c => initiator_connected c = true) (request_targets out).
Proof.
  revert w. induction inputs as [|i rest IH]; intros w; cbn [run].
  - exists []. cbn. now rewrite app_nil_r.
  - destruct (IH (step P i w)) as (out2 & -> & H2).
    destruct (step_trace i w) as (out1 & -> & H1).
    exists (out1 ++ out2). rewrite app_assoc. split; [reflexivity|].
    unfold request_targets in *. rewrite flat_map_app.
    apply Forall_app. now split.
Qed.

Lemma tier_log_emitted (inputs : list input) (w : world)
    (names : list string) :
  tier_log (trace (run P inputs w)) = tier_log (trace w) ++ names ->
  tier_log (emitted w (run P inputs w)) = names.
Proof.
  destruct (run_trace inputs w) as (out & E & _).
  intros H. rewrite (emitted_app w _ out E).
  rewrite E, tier_log_app in H. now apply app_inv_head in H.
Qed.

Lemma run_app (a b : list input) (w : world) :
  run P (a ++ b) w = run P b (run P a w).
Proof.
  revert w. induction a as [|i a IH]; intros w; cbn; [reflexivity|apply IH].
Qed.

Lemma visited_app (Q : world -> Prop) (a b : list input) (w : world) :
  Forall Q (visited P a w) ->
  Forall Q (visited P b (run P a w)) ->
  Forall Q (visited P (a ++ b) w).
Proof.
  revert w. induction a as [|i a IH]; intros w Ha Hb; cbn in *.
  - assumption.
  - inversion Ha; subst. constructor; [assumption|]. now apply IH.
Qed.

Lemma elapsed_app (a b : list input) :
  elapsed (a ++ b) = (elapsed a + elapsed b)%N.
Proof.
  induction a as [|[eh|ms|l] a IH]; cbn; rewrite ?IH; lia.
Qed.

(** A quiet input while the dormant work is idle. *)
Lemma quiet_step_idle (i : input) (w : world) :
  quiet i = true ->
  dormant_work w = WORK_IDLE ->
  current_tier (step P i w) = current_tier w
  /\ dormant_work (step P i w) = WORK_IDLE
  /\ tier_log (trace (step P i w)) = tier_log (trace w).
Proof.
  intros Hq Hd. destruct i as [eh|ms|l]; cbn [step].
  - cbn in Hq. apply negb_true_iff in Hq.
    destruct (listener_unhandled_spec eh w Hq) as (out & -> & Hl & _).
    cbn. rewrite tier_log_app, Hl, app_nil_r. auto.
  - rewrite elapse_idle by assumption. auto.
  - cbn. auto.
Qed.

(** A quiet input while the dormant work is scheduled: either the work
    runs, or the remaining time shrinks by what has passed. *)
Lemma quiet_step_scheduled (i : input) (r : N) (w : world) :
  quiet i = true ->
  dormant_work w = WORK_SCHEDULED r ->
  (step P i w = exec (set_tier P TIER_DORMANT) (with_dormant_work WORK_IDLE w)
   /\ (r <= elapsed [i])%N)
  \/ (current_tier (step P i w) = current_tier w
      /\ dormant_work (step P i w) = WORK_SCHEDULED (r - elapsed [i])
      /\ (elapsed [i] <= r)%N
      /\ tier_log (trace (step P i w)) = tier_log (trace w)).
Proof.
  intros Hq Hd. destruct i as [eh|ms|l]; cbn [step elapsed].
  - right. cbn in Hq. apply negb_true_iff in Hq.
    destruct (listener_unhandled_spec eh w Hq) as (out & -> & Hl & _).
    cbn. rewrite tier_log_app, Hl, app_nil_r, N.sub_0_r.
    repeat split; auto. lia.
  - rewrite N.add_0_r. destruct (N.leb_spec r ms).
    + left. rewrite (elapse_due ms r) by assumption. auto.
    + right. rewrite (elapse_pending ms r) by assumption. cbn.
      repeat split; auto. lia.
  - right. cbn. rewrite N.sub_0_r. repeat split; auto. lia.
Qed.

Lemma quiet_run_idle (qs : list input) (w : world) :
  forallb quiet qs = true ->
  dormant_work w = WORK_IDLE ->
  Forall (fun w' => current_tier w' = current_tier w) (visited P qs w)
  /\ current_tier (run P qs w) = current_tier w
  /\ dormant_work (run P qs w) = WORK_IDLE
  /\ tier_log (trace (run P qs w)) = tier_log (trace w).
Proof.
  revert w. induction qs as [|i qs IH]; intros w Hq Hd; cbn in *.
  - repeat split; auto.
  - apply andb_true_iff in Hq. destruct Hq as [Hi Hqs].
    destruct (quiet_step_idle i w Hi Hd) as (Ht & Hd' & Hl).
    destruct (IH (step P i w) Hqs Hd') as (Hv & Ht' & Hd'' & Hl').
    rewrite Ht in Hv, Ht'. rewrite Hl in Hl'.
    repeat split; auto.
Qed.

Lemma quiet_run_pending (qs : list input) (r : N) (w : world) :
  forallb quiet qs = true ->
  dormant_work w = WORK_SCHEDULED r ->
  (elapsed qs < r)%N ->
  Forall (fun w' => current_tier w' = current_tier w) (visited P qs w)
  /\ current_tier (run P qs w) = current_tier w
  /\ dormant_work (run P qs w) = WORK_SCHEDULED (r - elapsed qs)
  /\ tier_log (trace (run P qs w)) = tier_log (trace w).
Proof.
  revert r w. induction qs as [|i qs IH]; intros r w Hq Hd Hlt; cbn [run visited].
  - cbn. rewrite N.sub_0_r. repeat split; auto.
  - cbn in Hq. apply andb_true_iff in Hq. destruct Hq as [Hi Hqs].
    change (i :: qs) with ([i] ++ qs) in Hlt |- *.
    rewrite elapsed_app in *.
    destruct (quiet_step_scheduled i r w Hi Hd)
      as [[_ Hle]|(Ht & Hd' & Hle & Hl)]; [lia|].
    destruct (IH (r - elapsed [i])%N (step P i w) Hqs Hd')
      as (Hv & Ht' & Hd'' & Hl'); [lia|].
    rewrite Ht in Hv, Ht'. rewrite Hl in Hl'.
    replace (r - (elapsed [i] + elapsed qs))%N
      with (r - elapsed [i] - elapsed qs)%N by lia.
    repeat split; auto.
Qed.

Lemma quiet_run_scheduled (qs : list input) (r : N) (w : world) :
  forallb quiet qs = true ->
  dormant_work w = WORK_SCHEDULED r ->
  (current_tier (run P qs w) = TIER_DORMANT
   /\ dormant_work (run P qs w) = WORK_IDLE
   /\ tier_log (trace (run P qs w))
      = tier_log (trace w)
        ++ (if subrate_tier_eqb TIER_DORMANT (current_tier w) then []
            else [tier_name TIER_DORMANT]))
  \/ (current_tier (run P qs w) = current_tier w
      /\ dormant_work (run P qs w) = WORK_SCHEDULED (r - elapsed qs)
      /\ (elapsed qs <= r)%N
      /\ tier_log (trace (run P qs w)) = tier_log (trace w)).
Proof.
  revert r w. induction qs as [|i qs IH]; intros r w Hq Hd; cbn [run].
  - right. cbn. rewrite N.sub_0_r. repeat split; auto. lia.
  - cbn in Hq. apply andb_true_iff in Hq. destruct Hq as [Hi Hqs].
    change (i :: qs) with ([i] ++ qs). rewrite elapsed_app.
    destruct (quiet_step_scheduled i r w Hi Hd)
      as [[Hs _]|(Ht & Hd' & Hle & Hl)].
    + left. rewrite Hs.
      destruct (quiet_run_idle qs
                  (exec (set_tier P TIER_DORMANT)
                        (with_dormant_work WORK_IDLE w)) Hqs)
        as (_ & Ht' & Hd' & Hl').
      { now rewrite set_tier_dormant_work. }
      rewrite Ht', Hd', Hl', set_tier_current_tier, set_tier_tier_log.
      auto.
    + destruct (IH (r - elapsed [i])%N (step P i w) Hqs Hd')
        as [(Ht' & Hd'' & Hl')|(Ht' & Hd'' & Hle' & Hl')].
      * left. rewrite Ht', Hd'', Hl', Hl, Ht. auto.
      * right. rewrite Ht', Hd'', Hl', Hl, Ht.
        replace (r - (elapsed [i] + elapsed qs))%N
          with (r - elapsed [i] - elapsed qs)%N by lia.
        repeat split; auto. lia.
Qed.

Lemma idle_event_step (st : zmk_activity_state) (w : world) :
  idle_family st = true ->
  let w1 := step P (Event (zmk_activity_state_changed st)) w in
  current_tier w1 = TIER_IDLE
  /\ dormant_work w1 = WORK_SCHEDULED (DORMANT_DELAY P)
  /\ tier_log (trace w1)
     = tier_log (trace w)
       ++ (if subrate_tier_eqb TIER_IDLE (current_tier w) then []
           else [tier_name TIER_IDLE]).
Proof.
  intros H. cbn [step]. unfold exec.
  rewrite listener_idle_spec by assumption. cbn [snd].
  cbn [with_dormant_work current_tier dormant_work trace].
  rewrite set_tier_current_tier, set_tier_tier_log. auto.
Qed.

Lemma active_event_step (w : world) :
  let w1 := step P (Event (zmk_activity_state_changed ZMK_ACTIVITY_ACTIVE)) w in
  current_tier w1 = TIER_ACTIVE
  /\ dormant_work w1 = WORK_IDLE
  /\ tier_log (trace w1)
     = tier_log (trace w)
       ++ (if subrate_tier_eqb TIER_ACTIVE (current_tier w) then []
           else [tier_name TIER_ACTIVE]).
Proof.
  cbn [step]. unfold exec. rewrite listener_active_spec. cbn [snd].
  rewrite set_tier_current_tier, set_tier_dormant_work, set_tier_tier_log.
  auto.
Qed.

(** *** Initialisation *)

(** [zmk_sdc_subrating_init] hands the IDLE parameters to the stack and
    returns the stack's code: 0 after logging the configuration, or the
    error after logging it.  It touches neither the tier nor the dormant
    work. *)
Lemma zmk_sdc_subrating_init_spec (w : world) :
  let err := stack_set_defaults P (trace w) (idle_params P) in
  zmk_sdc_subrating_init P w
  = (err,
     mkWorld (current_tier w) (dormant_work w) (conns w)
             (if err =? 0 then idle_params P else subrate_defaults w)
             (trace w ++ [HCI_set_defaults (idle_params P) err;
                          if err =? 0 then LOG_INF_init
                          else LOG_ERR_defaults err])).
Proof.
  cbn zeta. unfold zmk_sdc_subrating_init, bind,
    bt_conn_le_subrate_set_defaults, emit, ret.
  cbn [fst snd].
  destruct (stack_set_defaults P (trace w) (idle_params P) =? 0) eqn:E;
    cbn; rewrite ?E; unfold with_effect, with_subrate_defaults; cbn;
    rewrite <- ?app_assoc.
  - apply Z.eqb_eq in E. now rewrite E.
  - reflexivity.
Qed.

(** *** The properties of the specification *)

(** C1: [set_tier] with the current tier is a no-op, so a second call with
    the same tier changes nothing; when the first call is a change of tier,
    the two calls together log one tier line, install the defaults once and
    send one request to each central, connected LE connection. *)
Theorem set_tier_idempotent (tier : subrate_tier) (w : world) :
  (tier = current_tier w ->
   set_tier P tier w = (tt, w)
   /\ emitted w (exec (set_tier P tier) w) = [])
  /\ exec (set_tier P tier) (exec (set_tier P tier) w)
     = exec (set_tier P tier) w
  /\ (tier <> current_tier w ->
      let w2 := exec (set_tier P tier) (exec (set_tier P tier) w) in
      tier_log (emitted w w2) = [tier_name tier]
      /\ defaults_calls (emitted w w2) = [tier_params P tier]
      /\ request_targets (emitted w w2)
         = filter initiator_connected (filter is_LE (conns w))).
Proof.
  assert (Hsecond : exec (set_tier P tier) (exec (set_tier P tier) w)
                    = exec (set_tier P tier) w).
  { unfold exec at 1. rewrite set_tier_same; [reflexivity|].
    symmetry. apply set_tier_current_tier. }
  split; [|split].
  - intros H. split; [now apply set_tier_same|].
    unfold exec. rewrite set_tier_same by assumption. apply emitted_refl.
  - exact Hsecond.
  - intros H w2. subst w2. rewrite Hsecond.
    rewrite (emitted_app w _ (set_tier_record P tier w))
      by (now rewrite set_tier_change).
    rewrite set_tier_record_tier_log, set_tier_record_defaults,
      set_tier_record_targets.
    auto.
Qed.

(** C2: the requests of a tier change go to connections that are live, of
    role central and in state connected, and to no other; every such LE
    connection receives one; and along every run, whatever the connections
    are at each moment, every request recorded went to a connection of role
    central in state connected. *)
Theorem broadcast_scope (tier : subrate_tier) (w : world) :
  (forall c : bt_conn,
      In c (request_targets (emitted w (exec (set_tier P tier) w))) ->
      In c (conns w)
      /\ role (conn_info c) = BT_CONN_ROLE_CENTRAL
      /\ state (conn_info c) = BT_CONN_STATE_CONNECTED)
  /\ (tier <> current_tier w ->
      forall c : bt_conn,
        In c (conns w) ->
        conn_type c = BT_CONN_TYPE_LE ->
        role (conn_info c) = BT_CONN_ROLE_CENTRAL ->
        state (conn_info c) = BT_CONN_STATE_CONNECTED ->
        In c (request_targets (emitted w (exec (set_tier P tier) w))))
  /\ (forall (inputs : list input) (c : bt_conn),
        In c (request_targets (emitted w (run P inputs w))) ->
        role (conn_info c) = BT_CONN_ROLE_CENTRAL
        /\ state (conn_info c) = BT_CONN_STATE_CONNECTED).
Proof.
  rewrite (emitted_app w _ _ (set_tier_trace tier w)).
  split; [|split].
  - intros c H. apply set_tier_out_targets in H.
    destruct H as (Hin & _ & Hic).
    apply initiator_connected_spec in Hic. tauto.
  - intros Hne c Hin Hty Hrole Hstate.
    unfold set_tier_out.
    rewrite (proj2 (subrate_tier_eqb_neq _ _) Hne).
    rewrite set_tier_record_targets.
    apply filter_In. split.
    + apply filter_In. split; [assumption|]. now apply is_LE_spec.
    + apply initiator_connected_spec. now split.
  - intros inputs c H.
    destruct (run_trace inputs w) as (out & E & Hscope).
    rewrite (emitted_app w _ out E) in H.
    apply initiator_connected_spec.
    exact (proj1 (Forall_forall _ _) Hscope c H).
Qed.

(** C3: after an ACTIVE event the tier is ACTIVE and the dormant work is
    idle, whatever the world was. *)
Theorem active_event_mapping (w : world) :
  let w' := exec (subrating_activity_listener P
                    (zmk_activity_state_changed ZMK_ACTIVITY_ACTIVE)) w in
  current_tier w' = TIER_ACTIVE /\ dormant_work w' = WORK_IDLE.
Proof.
  unfold exec. rewrite listener_active_spec. cbn [snd].
  split.
  - apply set_tier_current_tier.
  - now rewrite set_tier_dormant_work.
Qed.

(** C4: the listener does the same on IDLE and on SLEEP: it cancels the
    dormant work, calls [set_tier TIER_IDLE], and schedules the dormant
    work, which is idle by then, after the dormant delay. *)
Theorem idle_and_sleep_identical (w : world) :
  let on_idle := subrating_activity_listener P
                   (zmk_activity_state_changed ZMK_ACTIVITY_IDLE) in
  let on_sleep := subrating_activity_listener P
                    (zmk_activity_state_changed ZMK_ACTIVITY_SLEEP) in
  on_idle w = on_sleep w
  /\ result on_idle w = 0
  /\ exec on_idle w
     = exec (k_work_schedule (K_MSEC (SUBRATE_DORMANT_DELAY_MS P)))
         (exec (set_tier P TIER_IDLE) (exec k_work_cancel_delayable w))
  /\ dormant_work (exec k_work_cancel_delayable w) = WORK_IDLE
  /\ current_tier (exec on_idle w) = TIER_IDLE
  /\ dormant_work (exec on_idle w)
     = WORK_SCHEDULED (K_MSEC (SUBRATE_DORMANT_DELAY_MS P)).
Proof.
  cbn zeta. rewrite !k_work_cancel_delayable_spec.
  unfold result.
  unfold exec at 1 4 5.
  rewrite !(listener_idle_spec ZMK_ACTIVITY_IDLE) by reflexivity.
  rewrite !(listener_idle_spec ZMK_ACTIVITY_SLEEP) by reflexivity.
  cbn [fst snd].
  repeat split.
  - unfold exec at 2, k_work_schedule.
    now rewrite set_tier_dormant_work.
  - cbn. apply set_tier_current_tier.
Qed.

(** C5: an idle event, then less than the dormant delay without a handled
    event, then an ACTIVE event, then any time without a handled event: no
    world from the idle event on has the DORMANT tier, and no DORMANT tier
    line is logged. *)
Theorem idle_debounce (st : zmk_activity_state) (qs1 qs2 : list input)
    (w : world) :
  idle_family st = true ->
  forallb quiet qs1 = true ->
  (elapsed qs1 < DORMANT_DELAY P)%N ->
  forallb quiet qs2 = true ->
  let inputs :=
    Event (zmk_activity_state_changed st)
      :: qs1 ++ Event (zmk_activity_state_changed ZMK_ACTIVITY_ACTIVE) :: qs2 in
  Forall (fun w' => current_tier w' <> TIER_DORMANT)
         (tl (visited P inputs w))
  /\ ~ In (tier_name TIER_DORMANT) (tier_log (emitted w (run P inputs w)))
  /\ tier_log (emitted w (run P inputs w))
     = (if subrate_tier_eqb TIER_IDLE (current_tier w) then []
        else [tier_name TIER_IDLE]) ++ [tier_name TIER_ACTIVE]
  /\ current_tier (run P inputs w) = TIER_ACTIVE
  /\ dormant_work (run P inputs w) = WORK_IDLE.
Proof.
  intros Hst Hq1 Hlt Hq2 inputs.
  destruct (idle_event_step st w Hst) as (Ht1 & Hd1 & Hl1).
  set (w1 := step P (Event (zmk_activity_state_changed st)) w) in *.
  destruct (quiet_run_pending qs1 _ w1 Hq1 Hd1 Hlt) as (Hv2 & Ht2 & Hd2 & Hl2).
  set (w2 := run P qs1 w1) in *.
  destruct (active_event_step w2) as (Ht3 & Hd3 & Hl3).
  set (w3 := step P (Event (zmk_activity_state_changed ZMK_ACTIVITY_ACTIVE))
                  w2) in *.
  destruct (quiet_run_idle qs2 w3 Hq2 Hd3) as (Hv4 & Ht4 & Hd4 & Hl4).
  assert (Hrun : run P inputs w = run P qs2 w3).
  { subst inputs. cbn [run]. fold w1. rewrite run_app. reflexivity. }
  assert (Hlog : tier_log (emitted w (run P inputs w))
                 = (if subrate_tier_eqb TIER_IDLE (current_tier w) then []
                    else [tier_name TIER_IDLE]) ++ [tier_name TIER_ACTIVE]).
  { apply tier_log_emitted. rewrite Hrun, Hl4, Hl3, Hl2, Hl1, Ht2, Ht1.
    cbn. now rewrite <- app_assoc. }
  split; [|split; [|split; [|split]]].
  - subst inputs. cbn [visited tl]. fold w1.
    apply visited_app.
    + eapply Forall_impl; [|exact Hv2].
      intros a Ha. cbn beta in Ha. congruence.
    + fold w2. cbn [visited]. fold w3. constructor.
      * congruence.
      * eapply Forall_impl; [|exact Hv4].
        intros a Ha. cbn beta in Ha. congruence.
  - rewrite Hlog.
    destruct (subrate_tier_eqb TIER_IDLE (current_tier w)); cbn;
      intuition discriminate.
  - exact Hlog.
  - now rewrite Hrun, Ht4.
  - now rewrite Hrun.
Qed.

(** C6: an idle event followed by inputs without a handled event during
    which at least the dormant delay passes: the dormant work has run, the
    tier is DORMANT, and the DORMANT tier line is the last one logged. *)
Theorem dormant_escalation (st : zmk_activity_state) (qs1 qs2 : list input)
    (ms : N) (w : world) :
  idle_family st = true ->
  forallb quiet qs1 = true ->
  forallb quiet qs2 = true ->
  (DORMANT_DELAY P <= elapsed qs1 + ms)%N ->
  let inputs :=
    Event (zmk_activity_state_changed st) :: qs1 ++ Elapse ms :: qs2 in
  current_tier (run P inputs w) = TIER_DORMANT
  /\ dormant_work (run P inputs w) = WORK_IDLE
  /\ tier_log (emitted w (run P inputs w))
     = (if subrate_tier_eqb TIER_IDLE (current_tier w) then []
        else [tier_name TIER_IDLE]) ++ [tier_name TIER_DORMANT].
Proof.
  intros Hst Hq1 Hq2 Hle inputs.
  destruct (idle_event_step st w Hst) as (Ht1 & Hd1 & Hl1).
  set (w1 := step P (Event (zmk_activity_state_changed st)) w) in *.
  assert (Hrun : run P inputs w = run P (Elapse ms :: qs2) (run P qs1 w1)).
  { subst inputs. cbn [run]. fold w1. now rewrite run_app. }
  assert (Hq3 : forallb quiet (Elapse ms :: qs2) = true) by exact Hq2.
  assert (Hgoal : current_tier (run P inputs w) = TIER_DORMANT
                  /\ dormant_work (run P inputs w) = WORK_IDLE
                  /\ tier_log (trace (run P inputs w))
                     = tier_log (trace w1) ++ [tier_name TIER_DORMANT]).
  { rewrite Hrun.
    destruct (quiet_run_scheduled qs1 _ w1 Hq1 Hd1)
      as [(Ht2 & Hd2 & Hl2)|(Ht2 & Hd2 & Hle2 & Hl2)].
    - destruct (quiet_run_idle _ (run P qs1 w1) Hq3 Hd2) as (_ & Ht & Hd & Hl).
      rewrite Ht, Hd, Hl, Ht2, Hl2, Ht1. auto.
    - cbn [run step].
      rewrite (elapse_due ms _ _ Hd2) by lia.
      destruct (quiet_run_idle qs2
                  (exec (set_tier P TIER_DORMANT)
                        (with_dormant_work WORK_IDLE (run P qs1 w1))) Hq2)
        as (_ & Ht & Hd & Hl).
      { now rewrite set_tier_dormant_work. }
      rewrite Ht, Hd, Hl, set_tier_current_tier, set_tier_tier_log.
      cbn [with_dormant_work current_tier trace]. rewrite Ht2, Hl2, Ht1.
      auto. }
  destruct Hgoal as (Ht & Hd & Hl).
  repeat split; auto.
  apply tier_log_emitted. rewrite Hl, Hl1. now rewrite <- app_assoc.
Qed.

(** C7: a request answered [-EALREADY] is recorded without a log line, one
    answered any other non-zero code is followed by a warning and nothing
    else; and whatever the stack answers during a change of tier, the tier
    is the new one, the defaults are installed once and stay as that call
    left them, every central, connected LE connection gets its request, and
    the warnings are those of the logged failures. *)
Theorem request_failure_not_fatal (tier : subrate_tier) (w : world)
    (c : bt_conn) (p : bt_conn_le_subrate_param) :
  tier <> current_tier w ->
  initiator_connected c = true ->
  let err := stack_subrate_request P (trace w) c p in
  let w1 := exec (apply_subrate_to_conn P c p) w in
  let w' := exec (set_tier P tier) w in
  (err = - EALREADY (errno P) ->
   emitted w w1 = [HCI_subrate_request c p err])
  /\ (err <> 0 -> err <> - EALREADY (errno P) ->
      emitted w w1 = [HCI_subrate_request c p err; LOG_WRN_request err])
  /\ current_tier w1 = current_tier w
  /\ subrate_defaults w1 = subrate_defaults w
  /\ current_tier w' = tier
  /\ defaults_calls (emitted w w') = [tier_params P tier]
  /\ subrate_defaults w'
     = (if set_tier_defaults_err P tier w =? 0
        then tier_params P tier else subrate_defaults w)
  /\ request_targets (emitted w w')
     = filter initiator_connected (filter is_LE (conns w))
  /\ request_warnings (emitted w w')
     = filter (logged_failure P) (request_errs (emitted w w')).
Proof.
  intros Hne Hic err w1 w'. subst w1 w'.
  rewrite apply_subrate_to_conn_spec, set_tier_change by assumption.
  cbn [current_tier subrate_defaults].
  rewrite (emitted_app w _ (conn_record P (trace w) c p)) by reflexivity.
  rewrite (emitted_app w _ (set_tier_record P tier w)) by reflexivity.
  unfold conn_record. rewrite Hic. fold err.
  repeat split.
  - intros E.
    assert (L : logged_failure P err = false).
    { destruct (logged_failure P err) eqn:L; [|reflexivity].
      apply logged_failure_spec in L. tauto. }
    cbn zeta. now rewrite L.
  - intros E0 E1.
    cbn zeta. now rewrite (proj2 (logged_failure_spec err) (conj E0 E1)).
  - apply set_tier_record_defaults.
  - apply set_tier_record_targets.
  - apply set_tier_record_warnings.
Qed.

(** C8: an event that is not an ACTIVE, IDLE or SLEEP activity event gets
    a non-zero code and leaves the tier, the dormant work, the defaults and
    the connections as they were, with no call into the stack; the code is
    0 exactly for the three handled events.  The error numbers are
    positive. *)
Theorem unsupported_event_rejected (eh : zmk_event_t) (w : world) :
  0 < EINVAL (errno P) ->
  0 < ENOTSUP (errno P) ->
  let r := result (subrating_activity_listener P eh) w in
  let w' := exec (subrating_activity_listener P eh) w in
  (eh <> zmk_activity_state_changed ZMK_ACTIVITY_ACTIVE ->
   eh <> zmk_activity_state_changed ZMK_ACTIVITY_IDLE ->
   eh <> zmk_activity_state_changed ZMK_ACTIVITY_SLEEP ->
   r <> 0
   /\ current_tier w' = current_tier w
   /\ dormant_work w' = dormant_work w
   /\ subrate_defaults w' = subrate_defaults w
   /\ conns w' = conns w
   /\ protocol_traffic (emitted w w') = []
   /\ tier_log (emitted w w') = [])
  /\ (r = 0 <->
      eh = zmk_activity_state_changed ZMK_ACTIVITY_ACTIVE
      \/ eh = zmk_activity_state_changed ZMK_ACTIVITY_IDLE
      \/ eh = zmk_activity_state_changed ZMK_ACTIVITY_SLEEP)
  /\ (eh = zmk_other_event -> r = - ENOTSUP (errno P))
  /\ (forall raw : Z,
        eh = zmk_activity_state_changed (ZMK_ACTIVITY_OTHER raw) ->
        r = - EINVAL (errno P)).
Proof.
  intros Hinval Hnotsup r w'. subst r w'.
  assert (Hcase : handled_event eh = false ->
                  result (subrating_activity_listener P eh) w <> 0).
  { intros H.
    destruct (listener_unhandled_result eh w H) as [Hr|Hr]; rewrite Hr; lia. }
  split; [|split; [|split]].
  - intros Ha Hi Hs.
    assert (H : handled_event eh = false)
      by (destruct eh as [[| | |raw]|]; cbn; congruence).
    destruct (listener_unhandled_spec eh w H) as (out & -> & Hl & Hp & _).
    cbn [current_tier dormant_work subrate_defaults conns].
    rewrite (emitted_app w _ out) by reflexivity.
    repeat split; auto.
  - split.
    + intros Hr.
      destruct (handled_event eh) eqn:H.
      * destruct eh as [[| | |raw]|]; try discriminate H; auto.
      * exfalso. now apply Hcase.
    + intros [H|[H|H]]; subst eh; unfold result.
      * now rewrite listener_active_spec.
      * now rewrite listener_idle_spec.
      * now rewrite listener_idle_spec.
  - intros ->. reflexivity.
  - intros raw ->. reflexivity.
Qed.

(** C10: in the IDLE tier an idle event records nothing and changes
    nothing but the dormant work, which it schedules after the full dormant
    delay whatever time it had left; the tier then stays IDLE for as long
    as less than the dormant delay passes without a handled event. *)
Theorem repeated_idle_rearms (st : zmk_activity_state) (qs : list input)
    (w : world) :
  current_tier w = TIER_IDLE ->
  idle_family st = true ->
  let w' := step P (Event (zmk_activity_state_changed st)) w in
  w' = with_dormant_work (WORK_SCHEDULED (DORMANT_DELAY P)) w
  /\ emitted w w' = []
  /\ current_tier w' = TIER_IDLE
  /\ dormant_work w' = WORK_SCHEDULED (DORMANT_DELAY P)
  /\ (forallb quiet qs = true ->
      (elapsed qs < DORMANT_DELAY P)%N ->
      Forall (fun w'' => current_tier w'' = TIER_IDLE) (visited P qs w')
      /\ dormant_work (run P qs w')
         = WORK_SCHEDULED (DORMANT_DELAY P - elapsed qs)).
Proof.
  intros Ht Hst w'.
  assert (E : w' = with_dormant_work (WORK_SCHEDULED (DORMANT_DELAY P)) w).
  { subst w'. cbn [step]. unfold exec.
    rewrite listener_idle_spec by assumption. cbn [snd].
    unfold exec. rewrite set_tier_same by (now rewrite <- Ht).
    reflexivity. }
  rewrite E. cbn [with_dormant_work current_tier dormant_work].
  split; [reflexivity|]. split; [|split; [assumption|split; [reflexivity|]]].
  - apply emitted_app. cbn. now rewrite app_nil_r.
  - intros Hq Hlt.
    destruct (quiet_run_pending qs (DORMANT_DELAY P)
                (with_dormant_work (WORK_SCHEDULED (DORMANT_DELAY P)) w)
                Hq eq_refl Hlt) as (Hv & _ & Hd & _).
    split; [|exact Hd].
    eapply Forall_impl; [|exact Hv].
    intros a Ha. cbn beta in Ha. rewrite Ha. exact Ht.
Qed.

End Properties.

(** ** The theorems on the sample build *)

Lemma set_tier_idempotent_witness :
  let twice :=
    exec (set_tier Sample.build TIER_ACTIVE)
         (exec (set_tier Sample.build TIER_ACTIVE) Sample.start) in
  TIER_ACTIVE <> current_tier Sample.start
  /\ tier_log (emitted Sample.start twice) = ["ACTIVE"%string]
  /\ defaults_calls (emitted Sample.start twice)
     = [active_params Sample.build]
  /\ request_targets (emitted Sample.start twice)
     = [Sample.central_link 1; Sample.central_link 2; Sample.central_link 3].
Proof.
  assert (H : TIER_ACTIVE <> current_tier Sample.start)
    by (simpl; discriminate).
  exact (conj H (proj2 (proj2 (set_tier_idempotent Sample.build TIER_ACTIVE
                                                   Sample.start)) H)).
Defined.

Lemma broadcast_scope_witness :
  let c := Sample.central_link 3 in
  TIER_ACTIVE <> current_tier Sample.start
  /\ In c (conns Sample.start)
  /\ conn_type c = BT_CONN_TYPE_LE
  /\ role (conn_info c) = BT_CONN_ROLE_CENTRAL
  /\ state (conn_info c) = BT_CONN_STATE_CONNECTED
  /\ In c (request_targets
             (emitted Sample.start
                      (exec (set_tier Sample.build TIER_ACTIVE) Sample.start))).
Proof.
  assert (H : TIER_ACTIVE <> current_tier Sample.start)
    by (simpl; discriminate).
  assert (Hin : In (Sample.central_link 3) (conns Sample.start))
    by (simpl; tauto).
  exact (conj H (conj Hin (conj eq_refl (conj eq_refl (conj eq_refl
    (proj1 (proj2 (broadcast_scope Sample.build TIER_ACTIVE Sample.start))
           H (Sample.central_link 3) Hin eq_refl eq_refl eq_refl)))))).
Defined.

Lemma idle_debounce_witness :
  let inputs :=
    Event (zmk_activity_state_changed ZMK_ACTIVITY_IDLE)
      :: Sample.short_pause
      ++ Event (zmk_activity_state_changed ZMK_ACTIVITY_ACTIVE)
      :: [Elapse 60000] in
  idle_family ZMK_ACTIVITY_IDLE = true
  /\ forallb quiet Sample.short_pause = true
  /\ (elapsed Sample.short_pause < DORMANT_DELAY Sample.build)%N
  /\ forallb quiet [Elapse 60000] = true
  /\ Forall (fun w' => current_tier w' <> TIER_DORMANT)
            (tl (visited Sample.build inputs Sample.nearly_due))
  /\ ~ In "DORMANT"%string
          (tier_log (emitted Sample.nearly_due
                             (run Sample.build inputs Sample.nearly_due))).
Proof.
  assert (H3 : (elapsed Sample.short_pause < DORMANT_DELAY Sample.build)%N)
    by reflexivity.
  assert (T := idle_debounce Sample.build ZMK_ACTIVITY_IDLE
                 Sample.short_pause [Elapse 60000] Sample.nearly_due
                 eq_refl eq_refl H3 eq_refl).
  exact (conj eq_refl (conj eq_refl (conj H3 (conj eq_refl
           (conj (proj1 T) (proj1 (proj2 T))))))).
Defined.

Lemma dormant_escalation_witness :
  let inputs :=
    Event (zmk_activity_state_changed ZMK_ACTIVITY_IDLE)
      :: Sample.long_pause ++ Elapse 1 :: [Connections []] in
  idle_family ZMK_ACTIVITY_IDLE = true
  /\ forallb quiet Sample.long_pause = true
  /\ forallb quiet [Connections []] = true
  /\ (DORMANT_DELAY Sample.build <= elapsed Sample.long_pause + 1)%N
  /\ current_tier (run Sample.build inputs Sample.start) = TIER_DORMANT
  /\ dormant_work (run Sample.build inputs Sample.start) = WORK_IDLE.
Proof.
  assert (H : (DORMANT_DELAY Sample.build <= elapsed Sample.long_pause + 1)%N)
    by (vm_compute; discriminate).
  assert (T := dormant_escalation Sample.build ZMK_ACTIVITY_IDLE
                 Sample.long_pause [Connections []] 1 Sample.start
                 eq_refl eq_refl eq_refl H).
  exact (conj eq_refl (conj eq_refl (conj eq_refl (conj H
           (conj (proj1 T) (proj1 (proj2 T))))))).
Defined.

Lemma request_failure_not_fatal_witness :
  let w := Sample.start in
  let c := Sample.central_link 2 in
  let p := active_params Sample.build in
  let w' := exec (set_tier Sample.build TIER_ACTIVE) w in
  TIER_ACTIVE <> current_tier w
  /\ initiator_connected c = true
  /\ emitted w (exec (apply_subrate_to_conn Sample.build c p) w)
     = [HCI_subrate_request c p (-5); LOG_WRN_request (-5)]
  /\ current_tier w' = TIER_ACTIVE
  /\ request_targets (emitted w w')
     = [Sample.central_link 1; Sample.central_link 2; Sample.central_link 3]
  /\ request_warnings (emitted w w')
     = filter (logged_failure Sample.build) (request_errs (emitted w w')).
Proof.
  assert (H : TIER_ACTIVE <> current_tier Sample.start)
    by (simpl; discriminate).
  assert (E0 : -5 <> 0) by discriminate.
  assert (E1 : -5 <> - EALREADY (errno Sample.build))
    by (simpl; discriminate).
  destruct (request_failure_not_fatal Sample.build TIER_ACTIVE Sample.start
              (Sample.central_link 2) (active_params Sample.build)
              H eq_refl)
    as (_ & T2 & _ & _ & T5 & _ & _ & T8 & T9).
  exact (conj H (conj eq_refl (conj (T2 E0 E1) (conj T5 (conj T8 T9))))).
Defined.

Lemma unsupported_event_rejected_witness :
  let eh := zmk_activity_state_changed (ZMK_ACTIVITY_OTHER 7) in
  let w' := exec (subrating_activity_listener Sample.build eh)
                 Sample.nearly_due in
  0 < EINVAL (errno Sample.build)
  /\ 0 < ENOTSUP (errno Sample.build)
  /\ result (subrating_activity_listener Sample.build eh) Sample.nearly_due
     <> 0
  /\ current_tier w' = current_tier Sample.nearly_due
  /\ dormant_work w' = dormant_work Sample.nearly_due.
Proof.
  assert (H1 : 0 < EINVAL (errno Sample.build)) by reflexivity.
  assert (H2 : 0 < ENOTSUP (errno Sample.build)) by reflexivity.
  destruct (proj1 (unsupported_event_rejected Sample.build
                     (zmk_activity_state_changed (ZMK_ACTIVITY_OTHER 7))
                     Sample.nearly_due H1 H2))
    as (T1 & T2 & T3 & _); try discriminate.
  exact (conj H1 (conj H2 (conj T1 (conj T2 T3)))).
Defined.

Lemma repeated_idle_rearms_witness :
  let w' := step Sample.build
                 (Event (zmk_activity_state_changed ZMK_ACTIVITY_SLEEP))
                 Sample.nearly_due in
  current_tier Sample.nearly_due = TIER_IDLE
  /\ idle_family ZMK_ACTIVITY_SLEEP = true
  /\ forallb quiet Sample.short_pause = true
  /\ (elapsed Sample.short_pause < DORMANT_DELAY Sample.build)%N
  /\ emitted Sample.nearly_due w' = []
  /\ dormant_work w' = WORK_SCHEDULED (DORMANT_DELAY Sample.build)
  /\ Forall (fun w'' => current_tier w'' = TIER_IDLE)
            (visited Sample.build Sample.short_pause w').
Proof.
  assert (H4 : (elapsed Sample.short_pause < DORMANT_DELAY Sample.build)%N)
    by reflexivity.
  destruct (repeated_idle_rearms Sample.build ZMK_ACTIVITY_SLEEP
              Sample.short_pause Sample.nearly_due eq_refl eq_refl)
    as (_ & T2 & _ & T4 & T5).
  exact (conj eq_refl (conj eq_refl (conj eq_refl (conj H4
           (conj T2 (conj T4 (proj1 (T5 eq_refl H4)))))))).
Defined.

(** ** The scenario of the specification on the sample build *)

(** From the starting world: ACTIVE, then IDLE, then the dormant delay
    passes, then ACTIVE again.  The tier lines logged are ACTIVE, IDLE,
    DORMANT, ACTIVE, and the dormant work ends idle. *)
Example scenario_tiers :
  let w := run Sample.build
             [Event (zmk_activity_state_changed ZMK_ACTIVITY_ACTIVE);
              Event (zmk_activity_state_changed ZMK_ACTIVITY_IDLE);
              Elapse 30000;
              Event (zmk_activity_state_changed ZMK_ACTIVITY_ACTIVE)]
             Sample.start in
  tier_log (trace w) = ["ACTIVE"; "IDLE"; "DORMANT"; "ACTIVE"]%string
  /\ current_tier w = TIER_ACTIVE
  /\ dormant_work w = WORK_IDLE.
Proof. vm_compute. repeat split. Qed.

(** The same with ACTIVE arriving one millisecond before the delay is over:
    no DORMANT line. *)
Example scenario_debounce :
  let w := run Sample.build
             [Event (zmk_activity_state_changed ZMK_ACTIVITY_ACTIVE);
              Event (zmk_activity_state_changed ZMK_ACTIVITY_IDLE);
              Elapse 29999;
              Event (zmk_activity_state_changed ZMK_ACTIVITY_ACTIVE);
              Elapse 30000]
             Sample.start in
  tier_log (trace w) = ["ACTIVE"; "IDLE"; "ACTIVE"]%string
  /\ current_tier w = TIER_ACTIVE.
Proof. vm_compute. repeat split. Qed.

(** One change of tier on the sample links: the log line, the defaults,
    then a request per central, connected link, with a warning after the
    one answered [-EIO] and none after the one answered [-EALREADY]. *)
Example scenario_broadcast :
  let p := active_params Sample.build in
  emitted Sample.start (exec (set_tier Sample.build TIER_ACTIVE) Sample.start)
  = [LOG_INF_tier "ACTIVE" p;
     HCI_set_defaults p 0;
     HCI_subrate_request (Sample.central_link 1) p (-120);
     HCI_subrate_request (Sample.central_link 2) p (-5);
     LOG_WRN_request (-5);
     HCI_subrate_request (Sample.central_link 3) p 0].
Proof. vm_compute. reflexivity. Qed.

(** The sample build passes the build assertions. *)
Example sample_build_asserts : build_asserts Sample.build = true.
Proof. reflexivity. Qed.

(** ** Further properties of the module *)

Section MoreProperties.

Variable P : platform.

(** *** The tier table *)





(** *** One input *)

Lemma tier_name_inj (a b : subrate_tier) : tier_name a = tier_name b -> a = b.
Proof. destruct a, b; cbn; intros H; congruence. Qed.

Lemma set_tier_summary (tier : subrate_tier) (k : k_work_delayable)
    (w : world) :
  let w' := exec (set_tier P tier) (with_dormant_work k w) in
  current_tier w' = tier
  /\ dormant_work w' = k
  /\ conns w' = conns w
  /\ subrate_defaults w'
     = (if subrate_tier_eqb tier (current_tier w) then subrate_defaults w
        else if set_tier_defaults_err P tier w =? 0
             then tier_params P tier else subrate_defaults w)
  /\ trace w'
     = trace w ++ (if subrate_tier_eqb tier (current_tier w) then []
                   else set_tier_record P tier w).
Proof.
  cbn zeta.
  rewrite set_tier_current_tier, set_tier_dormant_work, set_tier_conns,
    set_tier_trace.
  repeat split.
  destruct (subrate_tier_eqb tier (current_tier w)) eqn:E.
  - apply subrate_tier_eqb_eq in E. unfold exec.
    rewrite set_tier_same by (cbn; exact E). reflexivity.
  - apply subrate_tier_eqb_neq in E.
    rewrite set_tier_change by (cbn; exact E). reflexivity.
Qed.

(** Every input either leaves the tier as it is and records at most the
    warning of an unhandled activity state, or changes the tier and records
    what the change to the new tier records. *)
Lemma step_summary (i : input) (w : world) :
  let w' := step P i w in
  trace w'
  = trace w ++ (if subrate_tier_eqb (current_tier w') (current_tier w)
                then unhandled_log i
                else set_tier_record P (current_tier w') w)
  /\ subrate_defaults w'
     = (if subrate_tier_eqb (current_tier w') (current_tier w)
        then subrate_defaults w
        else if set_tier_defaults_err P (current_tier w') w =? 0
             then tier_params P (current_tier w') else subrate_defaults w).
Proof.
  assert (Hrefl : forall t, subrate_tier_eqb t t = true)
    by (now destruct t).
  destruct i as [[[| | |raw]|]|ms|l]; cbn [step unhandled_log].
  - unfold exec. rewrite listener_active_spec. cbn [snd].
    destruct (set_tier_summary TIER_ACTIVE WORK_IDLE w)
      as (-> & _ & _ & -> & ->). auto.
  - unfold exec. rewrite listener_idle_spec by reflexivity. cbn [snd].
    cbn [with_dormant_work current_tier trace subrate_defaults].
    destruct (set_tier_summary TIER_IDLE WORK_IDLE w)
      as (-> & _ & _ & -> & ->). auto.
  - unfold exec. rewrite listener_idle_spec by reflexivity. cbn [snd].
    cbn [with_dormant_work current_tier trace subrate_defaults].
    destruct (set_tier_summary TIER_IDLE WORK_IDLE w)
      as (-> & _ & _ & -> & ->). auto.
  - cbn. rewrite Hrefl. auto.
  - cbn. rewrite Hrefl, app_nil_r. auto.
  - destruct (dormant_work w) as [|r] eqn:D.
    + rewrite elapse_idle by assumption. now rewrite Hrefl, app_nil_r.
    + destruct (N.leb_spec r ms).
      * rewrite (elapse_due P ms r) by assumption.
        destruct (set_tier_summary TIER_DORMANT WORK_IDLE w)
          as (-> & _ & _ & -> & ->). auto.
      * rewrite (elapse_pending P ms r) by assumption. cbn.
        now rewrite Hrefl, app_nil_r.
  - cbn. now rewrite Hrefl, app_nil_r.
Qed.

Lemma step_emitted (i : input) (w : world) :
  emitted w (step P i w)
  = (if subrate_tier_eqb (current_tier (step P i w)) (current_tier w)
     then unhandled_log i
     else set_tier_record P (current_tier (step P i w)) w).
Proof. apply emitted_app. apply step_summary. Qed.

Lemma run_emitted_cons (i : input) (rest : list input) (w : world) :
  emitted w (run P (i :: rest) w)
  = emitted w (step P i w)
    ++ emitted (step P i w) (run P rest (step P i w)).
Proof.
  cbn [run].
  destruct (step_trace P i w) as (a & Ea & _).
  destruct (run_trace P rest (step P i w)) as (b & Eb & _).
  rewrite (emitted_app _ _ a Ea), (emitted_app _ _ b Eb).
  apply emitted_app. rewrite Eb, Ea. now rewrite app_assoc.
Qed.

Lemma unhandled_log_silent (i : input) :
  protocol_traffic (unhandled_log i) = []
  /\ tier_log (unhandled_log i) = []
  /\ defaults_calls (unhandled_log i) = []
  /\ request_params (unhandled_log i) = []
  /\ request_warnings (unhandled_log i) = [].
Proof. destruct i as [[[| | |raw]|]|ms|l]; cbn; auto. Qed.

(** X2: an input that leaves the tier as it is causes no call into the
    stack and no tier line; an input that changes the tier causes exactly
    one tier line, one installation of the new tier's defaults, and one
    request with the new tier's parameters to each central, connected LE
    connection. *)
Theorem traffic_iff_tier_change (i : input) (w : world) :
  let w' := step P i w in
  let out := emitted w w' in
  (current_tier w' = current_tier w ->
   protocol_traffic out = [] /\ tier_log out = [])
  /\ (current_tier w' <> current_tier w ->
      tier_log out = [tier_name (current_tier w')]
      /\ defaults_calls out = [tier_params P (current_tier w')]
      /\ request_targets out
         = filter initiator_connected (filter is_LE (conns w))
      /\ request_params out
         = map (fun _ => tier_params P (current_tier w'))
               (filter initiator_connected (filter is_LE (conns w)))).
Proof.
  cbn zeta. rewrite step_emitted. split; intros H.
  - rewrite (proj2 (subrate_tier_eqb_eq _ _) H).
    split; apply unhandled_log_silent.
  - rewrite (proj2 (subrate_tier_eqb_neq _ _) H).
    rewrite set_tier_record_tier_log, set_tier_record_defaults,
      set_tier_record_targets, set_tier_record_params.
    auto.
Qed.

(** *** Runs *)

Lemma tier_log_step (i : input) (w : world) :
  tier_log (emitted w (step P i w))
  = (if subrate_tier_eqb (current_tier (step P i w)) (current_tier w)
     then [] else [tier_name (current_tier (step P i w))]).
Proof.
  rewrite step_emitted.
  destruct (subrate_tier_eqb _ _).
  - apply unhandled_log_silent.
  - apply set_tier_record_tier_log.
Qed.

Lemma last_cons_default {A : Type} (l : list A) (x d : A) :
  last (x :: l) d = last l x.
Proof.
  revert x d. induction l as [|y l IH]; intros x d; [reflexivity|].
  change (last (x :: y :: l) d) with (last (y :: l) d).
  now rewrite !IH.
Qed.

(** X3: along any run the tier lines logged name a different tier each
    time, the first one a tier other than the one the run started in, and
    the last one the tier the run ends in: no tier is announced, and so
    none is applied, twice in a row. *)
Theorem tier_log_changes_only (inputs : list input) (w : world) :
  let names := tier_log (emitted w (run P inputs w)) in
  changes_only (tier_name (current_tier w)) names
  /\ last names (tier_name (current_tier w))
     = tier_name (current_tier (run P inputs w)).
Proof.
  cbn zeta. revert w. induction inputs as [|i rest IH]; intros w.
  - cbn [run]. rewrite emitted_refl. cbn. auto.
  - rewrite run_emitted_cons, tier_log_app, tier_log_step.
    cbn [run]. destruct (IH (step P i w)) as (Hc & Hl).
    destruct (subrate_tier_eqb (current_tier (step P i w)) (current_tier w))
      eqn:E.
    + apply subrate_tier_eqb_eq in E. cbn [app].
      rewrite <- E. auto.
    + apply subrate_tier_eqb_neq in E. cbn [app changes_only].
      split; [split|].
      * intros Hn. apply E. now apply tier_name_inj.
      * exact Hc.
      * rewrite <- Hl. apply last_cons_default.
Qed.




(** *** The dormant work *)

Lemma step_timer_consistent (i : input) (w : world) :
  timer_consistent P w -> timer_consistent P (step P i w).
Proof.
  unfold timer_consistent. intros H.
  destruct i as [eh|ms|l]; cbn [step].
  - destruct (handled_event eh) eqn:E.
    + destruct eh as [[| | |raw]|]; try discriminate E; unfold exec.
      * rewrite listener_active_spec. cbn [snd].
        now rewrite set_tier_dormant_work.
      * rewrite listener_idle_spec by reflexivity. cbn.
        rewrite set_tier_current_tier. split; [reflexivity|lia].
      * rewrite listener_idle_spec by reflexivity. cbn.
        rewrite set_tier_current_tier. split; [reflexivity|lia].
    + destruct (listener_unhandled_spec P eh w E) as (out & -> & _).
      exact H.
  - destruct (dormant_work w) as [|r] eqn:D.
    + rewrite elapse_idle by assumption. now rewrite D.
    + destruct (N.leb_spec r ms).
      * rewrite (elapse_due P ms r) by assumption.
        now rewrite set_tier_dormant_work.
      * rewrite (elapse_pending P ms r) by assumption. cbn.
        destruct H as [Ht Hr]. split; [exact Ht|lia].
  - exact H.
Qed.

(** X5: if the dormant work is scheduled only in the IDLE tier and for at
    most the dormant delay, this stays so in every world of every run; in
    particular the dormant work is idle whenever the tier is ACTIVE or
    DORMANT. *)
Theorem timer_only_in_idle_tier (inputs : list input) (w : world) :
  timer_consistent P w ->
  Forall (fun w' =>
            timer_consistent P w'
            /\ (current_tier w' <> TIER_IDLE -> dormant_work w' = WORK_IDLE))
         (visited P inputs w).
Proof.
  assert (Himp : forall w', timer_consistent P w' ->
                            current_tier w' <> TIER_IDLE ->
                            dormant_work w' = WORK_IDLE).
  { unfold timer_consistent. intros w' H Hn.
    destruct (dormant_work w'); [reflexivity|]. now destruct H. }
  revert w. induction inputs as [|i rest IH]; intros w H; cbn [visited].
  - constructor; [|constructor]. split; [exact H|now apply Himp].
  - constructor.
    + split; [exact H|now apply Himp].
    + apply IH. now apply step_timer_consistent.
Qed.

(** X6: a tier other than DORMANT becomes DORMANT by one input only: time
    passing, with the dormant work scheduled and due; with the dormant work
    consistent, the tier before was IDLE.  No event takes the module to
    DORMANT. *)
Theorem dormant_only_by_timer (i : input) (w : world) :
  current_tier w <> TIER_DORMANT ->
  current_tier (step P i w) = TIER_DORMANT ->
  exists (ms remaining : N),
    i = Elapse ms
    /\ dormant_work w = WORK_SCHEDULED remaining
    /\ (remaining <= ms)%N
    /\ (timer_consistent P w -> current_tier w = TIER_IDLE).
Proof.
  intros Hn Hd. destruct i as [eh|ms|l]; cbn [step] in Hd.
  - exfalso. destruct (handled_event eh) eqn:E.
    + destruct eh as [[| | |raw]|]; try discriminate E;
        unfold exec in Hd.
      * rewrite listener_active_spec in Hd. cbn [snd] in Hd.
        rewrite set_tier_current_tier in Hd. discriminate.
      * rewrite listener_idle_spec in Hd by reflexivity. cbn in Hd.
        rewrite set_tier_current_tier in Hd. discriminate.
      * rewrite listener_idle_spec in Hd by reflexivity. cbn in Hd.
        rewrite set_tier_current_tier in Hd. discriminate.
    + destruct (listener_unhandled_spec P eh w E) as (out & Eq & _).
      rewrite Eq in Hd. cbn in Hd. contradiction.
  - destruct (dormant_work w) as [|r] eqn:D.
    + rewrite elapse_idle in Hd by assumption. contradiction.
    + destruct (N.leb_spec r ms).
      * exists ms, r. repeat split; auto.
        unfold timer_consistent. rewrite D. tauto.
      * rewrite (elapse_pending P ms r) in Hd by assumption.
        cbn in Hd. contradiction.
  - cbn in Hd. contradiction.
Qed.

(** *** The defaults *)

Lemma step_defaults_track (i : input) (w : world) :
  (forall tr p, stack_set_defaults P tr p = 0) ->
  subrate_defaults w = tier_params P (current_tier w) ->
  subrate_defaults (step P i w) = tier_params P (current_tier (step P i w)).
Proof.
  intros Hacc H.
  destruct (step_summary i w) as (_ & ->).
  destruct (subrate_tier_eqb _ _) eqn:E.
  - apply subrate_tier_eqb_eq in E. now rewrite E.
  - unfold set_tier_defaults_err. now rewrite Hacc.
Qed.

Lemma run_defaults_track (inputs : list input) (w : world) :
  (forall tr p, stack_set_defaults P tr p = 0) ->
  subrate_defaults w = tier_params P (current_tier w) ->
  Forall (fun w' => subrate_defaults w' = tier_params P (current_tier w'))
         (visited P inputs w).
Proof.
  intros Hacc. revert w.
  induction inputs as [|i rest IH]; intros w H; cbn [visited].
  - now constructor.
  - constructor; [exact H|]. apply IH. now apply step_defaults_track.
Qed.

(** X7: with a stack that accepts every change of the defaults,
    initialisation succeeds and from then on, in every world of every run,
    the stack-wide defaults are the parameters of the current tier, so that
    a connection made later starts with the tier in force. *)
Theorem defaults_track_tier (inputs : list input) (l : list bt_conn)
    (d : bt_conn_le_subrate_param) :
  (forall tr p, stack_set_defaults P tr p = 0) ->
  let w0 := exec (zmk_sdc_subrating_init P) (boot l d) in
  result (zmk_sdc_subrating_init P) (boot l d) = 0
  /\ Forall (fun w => subrate_defaults w = tier_params P (current_tier w))
            (visited P inputs w0).
Proof.
  intros Hacc w0. subst w0. unfold exec, result.
  rewrite zmk_sdc_subrating_init_spec. cbn [fst snd]. rewrite Hacc.
  split; [reflexivity|].
  apply run_defaults_track; [exact Hacc|reflexivity].
Qed.

Lemma walk_record_shape (tr : list effect) (l : list bt_conn)
    (p : bt_conn_le_subrate_param) :
  Forall (fun e => match e with
                   | HCI_subrate_request _ _ _ | LOG_WRN_request _ => True
                   | _ => False
                   end) (walk_record P tr l p).
Proof.
  revert tr. induction l as [|c l IH]; intros tr; cbn [walk_record].
  - constructor.
  - apply Forall_app. split; [|apply IH].
    unfold conn_record. destruct (initiator_connected c); [|constructor].
    cbn zeta. destruct (logged_failure P _); repeat constructor.
Qed.

(** X8: when the stack rejects the defaults of a new tier, [set_tier]
    carries on: the tier is recorded as current, the requests go out to
    every central, connected LE connection, nothing about the rejection is
    logged, the defaults stay the old ones, and a further call for the same
    tier does nothing, so the installation is not tried again. *)
Theorem rejected_defaults_not_retried (tier : subrate_tier) (w : world) :
  tier <> current_tier w ->
  set_tier_defaults_err P tier w <> 0 ->
  let w' := exec (set_tier P tier) w in
  current_tier w' = tier
  /\ subrate_defaults w' = subrate_defaults w
  /\ request_targets (emitted w w')
     = filter initiator_connected (filter is_LE (conns w))
  /\ (forall err, ~ In (LOG_ERR_defaults err) (emitted w w'))
  /\ defaults_calls (emitted w w') = [tier_params P tier]
  /\ set_tier P tier w' = (tt, w').
Proof.
  intros Hne Herr w'. subst w'.
  assert (Hsame : set_tier P tier (exec (set_tier P tier) w)
                  = (tt, exec (set_tier P tier) w)).
  { apply set_tier_same. symmetry. apply set_tier_current_tier. }
  rewrite (emitted_app w _ (set_tier_record P tier w))
    by (now rewrite set_tier_change).
  rewrite set_tier_record_targets, set_tier_record_defaults,
    set_tier_current_tier.
  rewrite set_tier_change at 1 by assumption.
  cbn [subrate_defaults].
  rewrite (proj2 (Z.eqb_neq _ _) Herr).
  repeat split; auto.
  intros err Hin. unfold set_tier_record in Hin.
  destruct Hin as [Hin|[Hin|Hin]]; try discriminate Hin.
  pose proof (walk_record_shape
                (trace w ++ [LOG_INF_tier (tier_name tier) (tier_params P tier);
                             HCI_set_defaults (tier_params P tier)
                               (set_tier_defaults_err P tier w)])
                (filter is_LE (conns w)) (tier_params P tier)) as Hs.
  rewrite Forall_forall in Hs. exact (Hs _ Hin).
Qed.

(** X9: each change of tier sends at most one request per live
    connection: no more requests than there are connections, and none
    repeated when the connections are distinct. *)
Theorem one_request_per_connection (tier : subrate_tier) (w : world) :
  let targets := request_targets (emitted w (exec (set_tier P tier) w)) in
  (List.length targets <= List.length (conns w))%nat
  /\ (NoDup (conns w) -> NoDup targets).
Proof.
  cbn zeta. rewrite (emitted_app w _ _ (set_tier_trace P tier w)).
  unfold set_tier_out.
  destruct (subrate_tier_eqb tier (current_tier w)).
  - cbn. split; [lia|constructor].
  - rewrite set_tier_record_targets. split.
    + etransitivity; [apply filter_length_le|apply filter_length_le].
    + intros H. now apply NoDup_filter, NoDup_filter.
Qed.

(** *** Events in a row *)

Lemma with_dormant_work_same (w : world) :
  with_dormant_work (dormant_work w) w = w.
Proof. now destruct w. Qed.

(** X10: a handled event delivered twice in a row leaves the world as one
    delivery does: the second ACTIVE finds the tier ACTIVE and the dormant
    work idle, the second IDLE or SLEEP finds the tier IDLE and schedules
    the dormant work for the same delay; neither records anything. *)
Theorem handled_event_twice (eh : zmk_event_t) (w : world) :
  handled_event eh = true ->
  step P (Event eh) (step P (Event eh) w) = step P (Event eh) w.
Proof.
  intros H.
  assert (Hidle : forall st, idle_family st = true ->
            let e := Event (zmk_activity_state_changed st) in
            step P e (step P e w) = step P e w).
  { intros st Hst. cbn zeta. cbn [step]. unfold exec.
    rewrite (listener_idle_spec P st w) by assumption. cbn [snd].
    rewrite (listener_idle_spec P st) by assumption. cbn [snd].
    set (w1 := exec (set_tier P TIER_IDLE) (with_dormant_work WORK_IDLE w)).
    assert (Ht : current_tier w1 = TIER_IDLE)
      by apply set_tier_current_tier.
    unfold exec.
    rewrite (set_tier_same P TIER_IDLE) by (cbn; now rewrite Ht).
    reflexivity. }
  destruct eh as [[| | |raw]|]; try discriminate H.
  - cbn [step]. unfold exec.
    rewrite (listener_active_spec P w). cbn [snd].
    rewrite listener_active_spec. cbn [snd].
    set (w1 := exec (set_tier P TIER_ACTIVE) (with_dormant_work WORK_IDLE w)).
    assert (Ht : current_tier w1 = TIER_ACTIVE)
      by apply set_tier_current_tier.
    assert (Hd : dormant_work w1 = WORK_IDLE)
      by (subst w1; apply (set_tier_dormant_work P TIER_ACTIVE
                             (with_dormant_work WORK_IDLE w))).
    rewrite <- Hd, with_dormant_work_same. unfold exec.
    now rewrite set_tier_same by (now rewrite Ht).
  - now apply Hidle.
  - now apply Hidle.
Qed.

(** X11: in the DORMANT tier an IDLE or SLEEP event raises the link to the
    IDLE tier again: it logs the IDLE tier line, installs the IDLE defaults,
    requests the IDLE parameters on every central, connected LE connection
    and schedules the dormant work for the full delay. *)
Theorem idle_event_leaves_dormant (st : zmk_activity_state) (w : world) :
  current_tier w = TIER_DORMANT ->
  idle_family st = true ->
  let w' := step P (Event (zmk_activity_state_changed st)) w in
  current_tier w' = TIER_IDLE
  /\ dormant_work w' = WORK_SCHEDULED (DORMANT_DELAY P)
  /\ tier_log (emitted w w') = [tier_name TIER_IDLE]
  /\ defaults_calls (emitted w w') = [idle_params P]
  /\ request_targets (emitted w w')
     = filter initiator_connected (filter is_LE (conns w))
  /\ request_params (emitted w w')
     = map (fun _ => idle_params P)
           (filter initiator_connected (filter is_LE (conns w))).
Proof.
  intros Ht Hst w'.
  destruct (idle_event_step P st w Hst) as (Ht' & Hd' & _).
  fold w' in Ht', Hd'.
  subst w'. rewrite step_emitted. rewrite Ht', Ht. cbn [subrate_tier_eqb].
  rewrite set_tier_record_tier_log, set_tier_record_defaults,
    set_tier_record_targets, set_tier_record_params.
  repeat split; auto.
Qed.

(** X12: when the stack rejects the defaults at initialisation, the
    function returns the stack's code after logging it and changes nothing
    else; and since the tier is IDLE from the start, an IDLE or SLEEP event
    that follows does not install the IDLE defaults either: it causes no
    call into the stack at all. *)
Theorem failed_init_not_repaired_by_idle (st : zmk_activity_state)
    (l : list bt_conn) (d : bt_conn_le_subrate_param) :
  stack_set_defaults P [] (idle_params P) <> 0 ->
  idle_family st = true ->
  let err := stack_set_defaults P [] (idle_params P) in
  let w0 := exec (zmk_sdc_subrating_init P) (boot l d) in
  let w1 := step P (Event (zmk_activity_state_changed st)) w0 in
  result (zmk_sdc_subrating_init P) (boot l d) = err
  /\ w0 = mkWorld TIER_IDLE WORK_IDLE l d
               [HCI_set_defaults (idle_params P) err; LOG_ERR_defaults err]
  /\ subrate_defaults w1 = d
  /\ emitted w0 w1 = [].
Proof.
  intros Herr Hst err w0 w1.
  assert (E0 : w0 = mkWorld TIER_IDLE WORK_IDLE l d
                      [HCI_set_defaults (idle_params P) err;
                       LOG_ERR_defaults err]).
  { subst w0 err. unfold exec. rewrite zmk_sdc_subrating_init_spec.
    cbn [snd]. unfold boot.
    cbn [current_tier dormant_work conns subrate_defaults trace app].
    rewrite (proj2 (Z.eqb_neq _ _) Herr). reflexivity. }
  split; [|split; [exact E0|]].
  - unfold result. rewrite zmk_sdc_subrating_init_spec. reflexivity.
  - clearbody w0. assert (E1 : w1 = with_dormant_work (WORK_SCHEDULED (DORMANT_DELAY P)) w0).
    { subst w1. cbn [step]. unfold exec.
      rewrite listener_idle_spec by assumption. cbn [snd].
      unfold exec. rewrite set_tier_same by (now rewrite E0).
      rewrite E0. reflexivity. }
    rewrite E1. split.
    + now rewrite E0.
    + apply emitted_app. cbn. now rewrite app_nil_r.
Qed.

End MoreProperties.

(** ** Properties of the variant without tiers *)

Section UntieredProperties.

Variable Q : Untiered.platform.

Lemma untiered_emitted_app (w w' : Untiered.world)
    (out : list Untiered.effect) :
  Untiered.trace w' = Untiered.trace w ++ out -> Untiered.emitted w w' = out.
Proof.
  intros H. unfold Untiered.emitted. rewrite H.
  rewrite skipn_app, skipn_all, Nat.sub_diag. reflexivity.
Qed.

Lemma untiered_set_active_subrate_spec (c : bt_conn)
    (d : option bt_conn_le_subrate_param) (w : Untiered.world) :
  Untiered.exec (Untiered.set_active_subrate Q c d) w =
  Untiered.mkWorld (Untiered.conns w) (Untiered.subrate_defaults w)
    (Untiered.trace w
     ++ Untiered.conn_record Q Untiered.LOG_WRN_active (Untiered.trace w) c
          (Untiered.active_params Q)).
Proof.
  unfold Untiered.exec, Untiered.set_active_subrate, Untiered.conn_record,
    initiator_connected, Untiered.bind, Untiered.bt_conn_get_info,
    Untiered.ret, Untiered.bt_conn_le_subrate_request, Untiered.emit,
    Untiered.with_effect.
  cbn [fst snd].
  destruct (bt_conn_role_eqb _ _ && bt_conn_state_eqb _ _); cbn.
  - destruct (negb _ && negb _); cbn.
    + now rewrite <- app_assoc.
    + reflexivity.
  - rewrite app_nil_r. now destruct w.
Qed.

Lemma untiered_set_idle_subrate_spec (c : bt_conn)
    (d : option bt_conn_le_subrate_param) (w : Untiered.world) :
  Untiered.exec (Untiered.set_idle_subrate Q c d) w =
  Untiered.mkWorld (Untiered.conns w) (Untiered.subrate_defaults w)
    (Untiered.trace w
     ++ Untiered.conn_record Q Untiered.LOG_WRN_idle (Untiered.trace w) c
          (Untiered.idle_params Q)).
Proof.
  unfold Untiered.exec, Untiered.set_idle_subrate, Untiered.conn_record,
    initiator_connected, Untiered.bind, Untiered.bt_conn_get_info,
    Untiered.ret, Untiered.bt_conn_le_subrate_request, Untiered.emit,
    Untiered.with_effect.
  cbn [fst snd].
  destruct (bt_conn_role_eqb _ _ && bt_conn_state_eqb _ _); cbn.
  - destruct (negb _ && negb _); cbn.
    + now rewrite <- app_assoc.
    + reflexivity.
  - rewrite app_nil_r. now destruct w.
Qed.

Lemma untiered_foreach_spec
    (func : bt_conn -> option bt_conn_le_subrate_param -> Untiered.M unit)
    (warn : Z -> Untiered.effect) (p : bt_conn_le_subrate_param)
    (l : list bt_conn) (d : option bt_conn_le_subrate_param)
    (w : Untiered.world) :
  (forall c w0,
      Untiered.exec (func c d) w0 =
      Untiered.mkWorld (Untiered.conns w0) (Untiered.subrate_defaults w0)
        (Untiered.trace w0
         ++ Untiered.conn_record Q warn (Untiered.trace w0) c p)) ->
  Untiered.exec (Untiered.foreach_conn func l d) w =
  Untiered.mkWorld (Untiered.conns w) (Untiered.subrate_defaults w)
    (Untiered.trace w ++ Untiered.walk_record Q warn (Untiered.trace w) l p).
Proof.
  intros Hf. revert w.
  induction l as [|c l IH]; intros w; cbn [Untiered.foreach_conn].
  - unfold Untiered.exec, Untiered.ret. cbn. rewrite app_nil_r.
    now destruct w.
  - unfold Untiered.exec, Untiered.bind in IH |- *. cbn [fst snd].
    fold (Untiered.exec (func c d) w).
    rewrite IH, Hf. cbn. now rewrite <- app_assoc.
Qed.

Lemma untiered_walk_record (warn : Z -> Untiered.effect)
    (tr : list Untiered.effect) (l : list bt_conn)
    (p : bt_conn_le_subrate_param) :
  (forall err, warn err = Untiered.LOG_WRN_active err)
  \/ (forall err, warn err = Untiered.LOG_WRN_idle err) ->
  Untiered.request_targets (Untiered.walk_record Q warn tr l p)
  = filter initiator_connected l
  /\ Untiered.request_params (Untiered.walk_record Q warn tr l p)
     = map (fun _ => p) (filter initiator_connected l)
  /\ Untiered.defaults_calls (Untiered.walk_record Q warn tr l p) = []
  /\ Untiered.request_warnings (Untiered.walk_record Q warn tr l p)
     = filter (fun err => negb (err =? 0)
                          && negb (err =? - EALREADY (Untiered.errno Q)))
              (Untiered.request_errs (Untiered.walk_record Q warn tr l p)).
Proof.
  intros Hw. revert tr.
  induction l as [|c l IH]; intros tr; cbn [Untiered.walk_record filter].
  - cbn. auto.
  - destruct (IH (tr ++ Untiered.conn_record Q warn tr c p))
      as (I1 & I2 & I3 & I4).
    unfold Untiered.request_targets, Untiered.request_params,
      Untiered.defaults_calls, Untiered.request_warnings,
      Untiered.request_errs in *.
    rewrite !flat_map_app, filter_app, I1, I2, I3, I4.
    unfold Untiered.conn_record.
    destruct (initiator_connected c); cbn zeta; [|cbn; auto].
    destruct (negb _ && negb _) eqn:E; cbn; rewrite ?E.
    + destruct Hw as [Hw|Hw]; rewrite Hw; cbn; auto.
    + auto.
Qed.

Lemma untiered_apply_record (dbg : Untiered.effect)
    (warn : Z -> Untiered.effect) (p : bt_conn_le_subrate_param)
    (w : Untiered.world) :
  (forall err, warn err = Untiered.LOG_WRN_active err)
  \/ (forall err, warn err = Untiered.LOG_WRN_idle err) ->
  (exists a b c, dbg = Untiered.LOG_DBG_active a b c)
  \/ (exists a b c, dbg = Untiered.LOG_DBG_idle a b c) ->
  let out := Untiered.apply_record Q dbg warn p w in
  Untiered.defaults_calls out = [p]
  /\ Untiered.request_targets out
     = filter initiator_connected (filter is_LE (Untiered.conns w))
  /\ Untiered.request_params out
     = map (fun _ => p)
           (filter initiator_connected (filter is_LE (Untiered.conns w)))
  /\ Untiered.request_warnings out
     = filter (fun err => negb (err =? 0)
                          && negb (err =? - EALREADY (Untiered.errno Q)))
              (Untiered.request_errs out).
Proof.
  intros Hw Hd. cbn zeta. unfold Untiered.apply_record.
  match goal with
  | |- context [Untiered.walk_record Q warn ?tr ?l p] =>
      destruct (untiered_walk_record warn tr l p Hw) as (W1 & W2 & W3 & W4);
      set (walk := Untiered.walk_record Q warn tr l p) in *
  end.
  unfold Untiered.request_targets, Untiered.request_params,
    Untiered.defaults_calls, Untiered.request_warnings,
    Untiered.request_errs in *.
  destruct Hd as [(a & b & c & ->)|(a & b & c & ->)];
    cbn [flat_map app]; rewrite W1, W2, W3, W4; auto.
Qed.

Lemma untiered_subrate_active_spec (w : Untiered.world) :
  let dbg := Untiered.LOG_DBG_active (Untiered.SUBRATE_ACTIVE_MIN Q)
               (Untiered.SUBRATE_ACTIVE_MAX Q)
               (Untiered.SUBRATE_ACTIVE_CN Q) in
  let p := Untiered.active_params Q in
  Untiered.exec (Untiered.subrate_active Q) w =
  Untiered.mkWorld (Untiered.conns w)
    (if Untiered.stack_set_defaults Q (Untiered.trace w ++ [dbg]) p =? 0
     then p else Untiered.subrate_defaults w)
    (Untiered.trace w
     ++ Untiered.apply_record Q dbg Untiered.LOG_WRN_active p w).
Proof.
  cbn zeta.
  unfold Untiered.subrate_active, Untiered.exec, Untiered.bind.
  cbn [fst snd]. unfold Untiered.bt_conn_foreach.
  match goal with
  | |- snd (Untiered.foreach_conn ?f ?l ?d ?w0) = _ =>
      change (snd (Untiered.foreach_conn f l d w0))
        with (Untiered.exec (Untiered.foreach_conn f l d) w0);
      rewrite (untiered_foreach_spec f Untiered.LOG_WRN_active
                 (Untiered.active_params Q) l d w0)
        by (intros; apply untiered_set_active_subrate_spec)
  end.
  unfold Untiered.apply_record, is_LE,
    Untiered.bt_conn_le_subrate_set_defaults, Untiered.emit.
  cbn [fst snd].
  destruct (Untiered.stack_set_defaults Q _ _ =? 0); cbn;
    rewrite <- !app_assoc; reflexivity.
Qed.

Lemma untiered_subrate_idle_spec (w : Untiered.world) :
  let dbg := Untiered.LOG_DBG_idle (Untiered.SUBRATE_IDLE_MIN Q)
               (Untiered.SUBRATE_IDLE_MAX Q)
               (Untiered.SUBRATE_IDLE_CN Q) in
  let p := Untiered.idle_params Q in
  Untiered.exec (Untiered.subrate_idle Q) w =
  Untiered.mkWorld (Untiered.conns w)
    (if Untiered.stack_set_defaults Q (Untiered.trace w ++ [dbg]) p =? 0
     then p else Untiered.subrate_defaults w)
    (Untiered.trace w
     ++ Untiered.apply_record Q dbg Untiered.LOG_WRN_idle p w).
Proof.
  cbn zeta.
  unfold Untiered.subrate_idle, Untiered.exec, Untiered.bind.
  cbn [fst snd]. unfold Untiered.bt_conn_foreach.
  match goal with
  | |- snd (Untiered.foreach_conn ?f ?l ?d ?w0) = _ =>
      change (snd (Untiered.foreach_conn f l d w0))
        with (Untiered.exec (Untiered.foreach_conn f l d) w0);
      rewrite (untiered_foreach_spec f Untiered.LOG_WRN_idle
                 (Untiered.idle_params Q) l d w0)
        by (intros; apply untiered_set_idle_subrate_spec)
  end.
  unfold Untiered.apply_record, is_LE,
    Untiered.bt_conn_le_subrate_set_defaults, Untiered.emit.
  cbn [fst snd].
  destruct (Untiered.stack_set_defaults Q _ _ =? 0); cbn;
    rewrite <- !app_assoc; reflexivity.
Qed.

Lemma untiered_listener_handled (eh : zmk_event_t)
    (p : bt_conn_le_subrate_param) (w : Untiered.world) :
  Untiered.event_params Q eh = Some p ->
  Untiered.result (Untiered.subrating_activity_listener Q eh) w = 0
  /\ exists dbg warn,
       Untiered.exec (Untiered.subrating_activity_listener Q eh) w =
       Untiered.mkWorld (Untiered.conns w)
         (if Untiered.stack_set_defaults Q (Untiered.trace w ++ [dbg]) p =? 0
          then p else Untiered.subrate_defaults w)
         (Untiered.trace w ++ Untiered.apply_record Q dbg warn p w)
       /\ ((forall err, warn err = Untiered.LOG_WRN_active err)
           \/ (forall err, warn err = Untiered.LOG_WRN_idle err))
       /\ ((exists a b c, dbg = Untiered.LOG_DBG_active a b c)
           \/ (exists a b c, dbg = Untiered.LOG_DBG_idle a b c)).
Proof.
  intros H. split.
  - destruct eh as [[| | |raw]|]; try discriminate H; reflexivity.
  - destruct eh as [[| | |raw]|]; try discriminate H;
      cbn in H; injection H as <-;
      unfold Untiered.exec; cbn [Untiered.subrating_activity_listener
                                 as_zmk_activity_state_changed];
      unfold Untiered.bind at 1, Untiered.ret; cbn [fst snd].
    + fold (Untiered.exec (Untiered.subrate_active Q) w).
      rewrite untiered_subrate_active_spec.
      do 2 eexists. split; [reflexivity|]. split; [left|left]; eauto.
    + fold (Untiered.exec (Untiered.subrate_idle Q) w).
      rewrite untiered_subrate_idle_spec.
      do 2 eexists. split; [reflexivity|]. split; [right|right]; eauto.
    + fold (Untiered.exec (Untiered.subrate_idle Q) w).
      rewrite untiered_subrate_idle_spec.
      do 2 eexists. split; [reflexivity|]. split; [right|right]; eauto.
Qed.

Lemma untiered_listener_unhandled (eh : zmk_event_t) (w : Untiered.world) :
  Untiered.event_params Q eh = None ->
  exists out,
    Untiered.exec (Untiered.subrating_activity_listener Q eh) w
    = Untiered.mkWorld (Untiered.conns w) (Untiered.subrate_defaults w)
        (Untiered.trace w ++ out)
    /\ Untiered.defaults_calls out = []
    /\ Untiered.request_targets out = [].
Proof.
  intros H. destruct eh as [[| | |raw]|]; try discriminate H.
  - exists [Untiered.LOG_WRN_unhandled (ZMK_ACTIVITY_OTHER raw)].
    cbn. auto.
  - exists []. cbn. rewrite app_nil_r. destruct w. cbn. auto.
Qed.

(** X13: in the variant without tiers every ACTIVE, IDLE or SLEEP event
    returns 0, installs the event's parameters as defaults once and
    requests them on exactly the LE connections of role central in state
    connected, whatever was applied before; a warning is logged for the
    requests that failed with a code other than [-EALREADY], and for no
    other. *)
Theorem untiered_event_applies (eh : zmk_event_t)
    (p : bt_conn_le_subrate_param) (w : Untiered.world) :
  Untiered.event_params Q eh = Some p ->
  let out := Untiered.emitted w
               (Untiered.exec (Untiered.subrating_activity_listener Q eh) w) in
  Untiered.result (Untiered.subrating_activity_listener Q eh) w = 0
  /\ Untiered.defaults_calls out = [p]
  /\ Untiered.request_targets out
     = filter initiator_connected (filter is_LE (Untiered.conns w))
  /\ (forall c, In c (Untiered.request_targets out) ->
                role (conn_info c) = BT_CONN_ROLE_CENTRAL
                /\ state (conn_info c) = BT_CONN_STATE_CONNECTED)
  /\ Untiered.request_params out
     = map (fun _ => p)
           (filter initiator_connected (filter is_LE (Untiered.conns w)))
  /\ Untiered.request_warnings out
     = filter (fun err => negb (err =? 0)
                          && negb (err =? - EALREADY (Untiered.errno Q)))
              (Untiered.request_errs out).
Proof.
  intros H out.
  destruct (untiered_listener_handled eh p w H)
    as (Hr & dbg & warn & E & Hw & Hd).
  assert (Eo : out = Untiered.apply_record Q dbg warn p w).
  { subst out. apply untiered_emitted_app. now rewrite E. }
  destruct (untiered_apply_record dbg warn p w Hw Hd) as (A1 & A2 & A3 & A4).
  rewrite Eo, A1, A2, A3, A4.
  split; [exact Hr|]. split; [reflexivity|]. split; [reflexivity|].
  split; [|split; reflexivity].
  intros c Hin. apply filter_In in Hin.
  now apply initiator_connected_spec.
Qed.

Lemma untiered_step_defaults (eh : zmk_event_t) (w : Untiered.world) :
  exists out,
    Untiered.trace
      (Untiered.exec (Untiered.subrating_activity_listener Q eh) w)
    = Untiered.trace w ++ out
    /\ Untiered.defaults_calls out = Untiered.applied_params Q [eh].
Proof.
  unfold Untiered.applied_params. cbn [flat_map]. rewrite app_nil_r.
  destruct (Untiered.event_params Q eh) as [p|] eqn:H.
  - destruct (untiered_listener_handled eh p w H)
      as (_ & dbg & warn & E & Hw & Hd).
    destruct (untiered_apply_record dbg warn p w Hw Hd) as (A1 & _).
    exists (Untiered.apply_record Q dbg warn p w).
    rewrite E. split; [reflexivity|exact A1].
  - destruct (untiered_listener_unhandled eh w H) as (out & E & D & _).
    exists out. rewrite E. split; [reflexivity|exact D].
Qed.

(** X14: the variant without tiers applies every handled event anew: along
    any list of events the defaults are installed once per ACTIVE, IDLE or
    SLEEP event, in order, also when the same event comes again; events it
    does not handle install nothing. *)
Theorem untiered_every_event_applies (events : list zmk_event_t)
    (w : Untiered.world) :
  Untiered.defaults_calls (Untiered.emitted w (Untiered.run Q events w))
  = Untiered.applied_params Q events.
Proof.
  assert (H : exists out,
             Untiered.trace (Untiered.run Q events w)
             = Untiered.trace w ++ out
             /\ Untiered.defaults_calls out
                = Untiered.applied_params Q events).
  { revert w. induction events as [|eh rest IH]; intros w;
      cbn [Untiered.run].
    - exists []. now rewrite app_nil_r.
    - destruct (untiered_step_defaults eh w) as (a & Ea & Da).
      destruct (IH (Untiered.exec (Untiered.subrating_activity_listener Q eh)
                                  w)) as (b & Eb & Db).
      exists (a ++ b). split.
      + rewrite Eb, Ea. now rewrite app_assoc.
      + unfold Untiered.defaults_calls, Untiered.applied_params in *.
        rewrite flat_map_app, Da, Db. cbn [flat_map].
        now rewrite app_nil_r. }
  destruct H as (out & E & D).
  now rewrite (untiered_emitted_app w _ out E).
Qed.



End UntieredProperties.

(** ** The two variants side by side *)

Section Variants.

Variable P : platform.
Variable Q : Untiered.platform.

Lemma configured_alike_params :
  configured_alike P Q ->
  active_params P = Untiered.active_params Q
  /\ idle_params P = Untiered.idle_params Q.
Proof.
  intros (E1 & E2 & E3 & E4 & E5 & E6 & E7 & E8 & _).
  unfold active_params, idle_params, Untiered.active_params,
    Untiered.idle_params.
  now rewrite E1, E2, E3, E4, E5, E6, E7, E8.
Qed.

(** X16: with the same error numbers the listeners of the two variants
    return the same code for every event, in every world: 0 for ACTIVE,
    IDLE and SLEEP, [-EINVAL] for another activity state, [-ENOTSUP] for an
    event of another type. *)
Theorem listener_codes_agree (eh : zmk_event_t) (w : world)
    (u : Untiered.world) :
  errno P = Untiered.errno Q ->
  result (subrating_activity_listener P eh) w
  = Untiered.result (Untiered.subrating_activity_listener Q eh) u.
Proof.
  intros E. destruct eh as [[| | |raw]|]; unfold result.
  - now rewrite listener_active_spec.
  - now rewrite listener_idle_spec.
  - now rewrite listener_idle_spec.
  - cbn. now rewrite E.
  - cbn. now rewrite E.
Qed.

(** X17: with the two variants configured alike and facing the same
    connections, a handled event that changes the tier makes the tiered
    module install the same defaults and send the same requests to the
    same connections as the variant without tiers; a handled event that
    leaves the tier as it is makes the tiered module call the stack not at
    all, where the variant without tiers installs and requests again. *)
Theorem tiers_save_repeated_traffic (eh : zmk_event_t)
    (p : bt_conn_le_subrate_param) (w : world) (u : Untiered.world) :
  configured_alike P Q ->
  Untiered.conns u = conns w ->
  Untiered.event_params Q eh = Some p ->
  let w' := step P (Event eh) w in
  let out := emitted w w' in
  let uout := Untiered.emitted u
                (Untiered.exec (Untiered.subrating_activity_listener Q eh) u) in
  (current_tier w' <> current_tier w ->
   defaults_calls out = Untiered.defaults_calls uout
   /\ request_targets out = Untiered.request_targets uout
   /\ request_params out = Untiered.request_params uout)
  /\ (current_tier w' = current_tier w ->
      protocol_traffic out = []
      /\ Untiered.defaults_calls uout = [p]
      /\ Untiered.request_targets uout
         = filter initiator_connected (filter is_LE (conns w))).
Proof.
  intros Ha Hc Hp w' out uout.
  destruct (configured_alike_params Ha) as (Eact & Eidle).
  destruct (untiered_listener_handled Q eh p u Hp)
    as (_ & dbg & warn & E & Hw & Hd).
  assert (Eu : uout = Untiered.apply_record Q dbg warn p u).
  { subst uout. apply untiered_emitted_app. now rewrite E. }
  destruct (untiered_apply_record Q dbg warn p u Hw Hd)
    as (A1 & A2 & A3 & _).
  rewrite Eu, A1, A2, A3, Hc. clear Eu E.
  assert (Et : tier_params P (current_tier w') = p).
  { subst w'. destruct eh as [[| | |raw]|]; try discriminate Hp;
      cbn in Hp; injection Hp as <-; cbn [step]; unfold exec.
    - rewrite listener_active_spec. cbn [snd].
      rewrite set_tier_current_tier. exact Eact.
    - rewrite listener_idle_spec by reflexivity. cbn.
      rewrite set_tier_current_tier. exact Eidle.
    - rewrite listener_idle_spec by reflexivity. cbn.
      rewrite set_tier_current_tier. exact Eidle. }
  subst out w'. rewrite step_emitted. split; intros H.
  - rewrite (proj2 (subrate_tier_eqb_neq _ _) H).
    rewrite set_tier_record_defaults, set_tier_record_targets,
      set_tier_record_params, Et. auto.
  - rewrite (proj2 (subrate_tier_eqb_eq _ _) H).
    split; [apply unhandled_log_silent|auto].
Qed.

End Variants.

(** ** The further properties on the sample builds *)


Lemma traffic_iff_tier_change_witness :
  let w' := step Sample.build (Elapse 1) Sample.nearly_due in
  current_tier w' <> current_tier Sample.nearly_due
  /\ tier_log (emitted Sample.nearly_due w') = ["DORMANT"%string]
  /\ defaults_calls (emitted Sample.nearly_due w')
     = [dormant_params Sample.build].
Proof.
  assert (H : current_tier (step Sample.build (Elapse 1) Sample.nearly_due)
              <> current_tier Sample.nearly_due)
    by (vm_compute; discriminate).
  destruct (proj2 (traffic_iff_tier_change Sample.build (Elapse 1)
                     Sample.nearly_due) H) as (T1 & T2 & _).
  exact (conj H (conj T1 T2)).
Defined.


Lemma timer_only_in_idle_tier_witness :
  timer_consistent Sample.build Sample.nearly_due
  /\ Forall (fun w' =>
               timer_consistent Sample.build w'
               /\ (current_tier w' <> TIER_IDLE ->
                   dormant_work w' = WORK_IDLE))
            (visited Sample.build Sample.long_pause Sample.nearly_due).
Proof.
  assert (H : timer_consistent Sample.build Sample.nearly_due)
    by (split; [reflexivity|vm_compute; discriminate]).
  exact (conj H (timer_only_in_idle_tier Sample.build Sample.long_pause
                   Sample.nearly_due H)).
Defined.

Lemma dormant_only_by_timer_witness :
  current_tier Sample.nearly_due <> TIER_DORMANT
  /\ current_tier (step Sample.build (Elapse 1) Sample.nearly_due)
     = TIER_DORMANT
  /\ exists (ms remaining : N),
       Elapse 1 = Elapse ms
       /\ dormant_work Sample.nearly_due = WORK_SCHEDULED remaining
       /\ (remaining <= ms)%N
       /\ (timer_consistent Sample.build Sample.nearly_due ->
           current_tier Sample.nearly_due = TIER_IDLE).
Proof.
  assert (H : current_tier Sample.nearly_due <> TIER_DORMANT)
    by (simpl; discriminate).
  exact (conj H (conj eq_refl
           (dormant_only_by_timer Sample.build (Elapse 1) Sample.nearly_due
              H eq_refl))).
Defined.

Lemma defaults_track_tier_witness :
  let w0 := exec (zmk_sdc_subrating_init Sample.build)
                 (boot Sample.links (mkParam 1 1 0 0 3200)) in
  (forall tr p, stack_set_defaults Sample.build tr p = 0)
  /\ result (zmk_sdc_subrating_init Sample.build)
            (boot Sample.links (mkParam 1 1 0 0 3200)) = 0
  /\ Forall (fun w => subrate_defaults w
                      = tier_params Sample.build (current_tier w))
            (visited Sample.build Sample.long_pause w0).
Proof.
  assert (H : forall tr p, stack_set_defaults Sample.build tr p = 0)
    by (intros tr p; reflexivity).
  exact (conj H (defaults_track_tier Sample.build Sample.long_pause
                   Sample.links (mkParam 1 1 0 0 3200) H)).
Defined.

Lemma rejected_defaults_not_retried_witness :
  let w' := exec (set_tier Rejecting.build TIER_ACTIVE) Rejecting.start in
  TIER_ACTIVE <> current_tier Rejecting.start
  /\ set_tier_defaults_err Rejecting.build TIER_ACTIVE Rejecting.start <> 0
  /\ current_tier w' = TIER_ACTIVE
  /\ subrate_defaults w' = subrate_defaults Rejecting.start
  /\ set_tier Rejecting.build TIER_ACTIVE w' = (tt, w').
Proof.
  assert (H1 : TIER_ACTIVE <> current_tier Rejecting.start)
    by (simpl; discriminate).
  assert (H2 : set_tier_defaults_err Rejecting.build TIER_ACTIVE
                 Rejecting.start <> 0)
    by (vm_compute; discriminate).
  destruct (rejected_defaults_not_retried Rejecting.build TIER_ACTIVE
              Rejecting.start H1 H2) as (T1 & T2 & _ & _ & _ & T6).
  exact (conj H1 (conj H2 (conj T1 (conj T2 T6)))).
Defined.

Lemma one_request_per_connection_witness :
  NoDup (conns Sample.start)
  /\ NoDup (request_targets
              (emitted Sample.start
                 (exec (set_tier Sample.build TIER_ACTIVE) Sample.start))).
Proof.
  assert (H : NoDup (conns Sample.start)).
  { repeat (constructor; [simpl; intuition discriminate|]). constructor. }
  exact (conj H (proj2 (one_request_per_connection Sample.build TIER_ACTIVE
                          Sample.start) H)).
Defined.

Lemma handled_event_twice_witness :
  let e := Event (zmk_activity_state_changed ZMK_ACTIVITY_SLEEP) in
  handled_event (zmk_activity_state_changed ZMK_ACTIVITY_SLEEP) = true
  /\ step Sample.build e (step Sample.build e sample_dormant)
     = step Sample.build e sample_dormant.
Proof.
  exact (conj eq_refl
           (handled_event_twice Sample.build
              (zmk_activity_state_changed ZMK_ACTIVITY_SLEEP)
              sample_dormant eq_refl)).
Defined.

Lemma idle_event_leaves_dormant_witness :
  let w' := step Sample.build
                 (Event (zmk_activity_state_changed ZMK_ACTIVITY_SLEEP))
                 sample_dormant in
  current_tier sample_dormant = TIER_DORMANT
  /\ idle_family ZMK_ACTIVITY_SLEEP = true
  /\ current_tier w' = TIER_IDLE
  /\ dormant_work w' = WORK_SCHEDULED (DORMANT_DELAY Sample.build)
  /\ tier_log (emitted sample_dormant w') = ["IDLE"%string].
Proof.
  destruct (idle_event_leaves_dormant Sample.build ZMK_ACTIVITY_SLEEP
              sample_dormant eq_refl eq_refl) as (T1 & T2 & T3 & _).
  exact (conj eq_refl (conj eq_refl (conj T1 (conj T2 T3)))).
Defined.

Lemma failed_init_not_repaired_by_idle_witness :
  let d := mkParam 1 1 0 0 3200 in
  let w0 := exec (zmk_sdc_subrating_init Rejecting.build)
                 (boot Sample.links d) in
  let w1 := step Rejecting.build
                 (Event (zmk_activity_state_changed ZMK_ACTIVITY_IDLE)) w0 in
  stack_set_defaults Rejecting.build [] (idle_params Rejecting.build) <> 0
  /\ idle_family ZMK_ACTIVITY_IDLE = true
  /\ result (zmk_sdc_subrating_init Rejecting.build) (boot Sample.links d)
     = -22
  /\ subrate_defaults w1 = d
  /\ emitted w0 w1 = [].
Proof.
  assert (H : stack_set_defaults Rejecting.build []
                (idle_params Rejecting.build) <> 0)
    by (simpl; discriminate).
  destruct (failed_init_not_repaired_by_idle Rejecting.build
              ZMK_ACTIVITY_IDLE Sample.links (mkParam 1 1 0 0 3200)
              H eq_refl) as (T1 & _ & T3 & T4).
  exact (conj H (conj eq_refl (conj T1 (conj T3 T4)))).
Defined.

Lemma untiered_event_applies_witness :
  let eh := zmk_activity_state_changed ZMK_ACTIVITY_ACTIVE in
  let p := Untiered.active_params Untiered.sample_build in
  let out := Untiered.emitted Untiered.sample_start
               (Untiered.exec
                  (Untiered.subrating_activity_listener
                     Untiered.sample_build eh)
                  Untiered.sample_start) in
  Untiered.event_params Untiered.sample_build eh = Some p
  /\ Untiered.defaults_calls out = [p]
  /\ Untiered.request_targets out
     = [Sample.central_link 1; Sample.central_link 2; Sample.central_link 3].
Proof.
  destruct (untiered_event_applies Untiered.sample_build
              (zmk_activity_state_changed ZMK_ACTIVITY_ACTIVE)
              (Untiered.active_params Untiered.sample_build)
              Untiered.sample_start eq_refl) as (_ & T2 & T3 & _).
  exact (conj eq_refl (conj T2 T3)).
Defined.


Lemma listener_codes_agree_witness :
  let eh := zmk_activity_state_changed (ZMK_ACTIVITY_OTHER 9) in
  errno Sample.build = Untiered.errno Untiered.sample_build
  /\ result (subrating_activity_listener Sample.build eh) Sample.start
     = Untiered.result
         (Untiered.subrating_activity_listener Untiered.sample_build eh)
         Untiered.sample_start.
Proof.
  exact (conj eq_refl
           (listener_codes_agree Sample.build Untiered.sample_build
              (zmk_activity_state_changed (ZMK_ACTIVITY_OTHER 9))
              Sample.start Untiered.sample_start eq_refl)).
Defined.

Lemma tiers_save_repeated_traffic_witness :
  let eh := zmk_activity_state_changed ZMK_ACTIVITY_IDLE in
  let p := Untiered.idle_params Untiered.sample_build in
  let w' := step Sample.build (Event eh) Sample.start in
  configured_alike Sample.build Untiered.sample_build
  /\ Untiered.conns Untiered.sample_start = conns Sample.start
  /\ Untiered.event_params Untiered.sample_build eh = Some p
  /\ current_tier w' = current_tier Sample.start
  /\ protocol_traffic (emitted Sample.start w') = []
  /\ Untiered.defaults_calls
       (Untiered.emitted Untiered.sample_start
          (Untiered.exec
             (Untiered.subrating_activity_listener Untiered.sample_build eh)
             Untiered.sample_start))
     = [p].
Proof.
  assert (H : configured_alike Sample.build Untiered.sample_build)
    by (repeat split).
  destruct (proj2 (tiers_save_repeated_traffic Sample.build
                     Untiered.sample_build
                     (zmk_activity_state_changed ZMK_ACTIVITY_IDLE)
                     (Untiered.idle_params Untiered.sample_build)
                     Sample.start Untiered.sample_start
                     H eq_refl eq_refl) eq_refl) as (T1 & T2 & _).
  exact (conj H (conj eq_refl (conj eq_refl (conj eq_refl (conj T1 T2))))).
Defined.
